(** * images.py : resizing an image twice and uploading both variants to S3

    Shallow embedding of [src/images.py] (the Typer command [upload] with its
    helpers [resize_image] and [upload_to_s3]) and the properties its
    specification states about it.

    The program is a straight line of effectful calls.  Everything outside it
    (the file system, the YAML parser, Pillow's decoder, the process
    environment, the storage service) is gathered in a record [world] of
    oracles; the program itself is written in a small monad that carries the
    exception raised so far, the list of observable events emitted and the
    state of the storage service. *)

From Stdlib Require Import ZArith Ascii String Floats.SpecFloat.
From stdpp Require Import gmap strings list pretty.

Open Scope Z_scope.
Open Scope string_scope.
Open Scope list_scope.

(** ** Python values, as [yaml.safe_load] returns them

    The documents considered are those made of null, booleans, integers,
    strings, sequences and mappings with string keys (the manifest format of
    the repository); floats, dates, binary values and mappings with keys of
    another type are left out.  A mapping is kept as the list of its
    bindings; [get] reads the first binding of a key. *)

#[warnings="-register-all"]
Inductive pyval : Type :=
| PNone
| PBool (b : bool)
| PInt (n : Z)
| PStr (s : string)
| PList (l : list pyval)
| PDict (d : list (string * pyval)).

(** ** Exceptions

    [typer.Exit] is click's [Exit], a subclass of [RuntimeError]: a handler
    for [Exception] catches it.  It is built without arguments to the base
    class, so its [str] is empty. *)

Inductive exn : Type :=
| FileNotFoundError (msg : string)
| YAMLError (msg : string)
| Exit (code : Z)
| PyException (cls msg : string).

Definition exn_str (e : exn) : string :=
  match e with
  | FileNotFoundError m | YAMLError m | PyException _ m => m
  | Exit _ => ""
  end.

Inductive result (A : Type) : Type :=
| Ok (a : A)
| Raise (e : exn).
Arguments Ok {A} a.
Arguments Raise {A} e.

(** ** Pillow images and encoded buffers *)

Inductive Mode : Type :=
| M1 | ML | MP | MRGB | MRGBA | MCMYK | MYCbCr | MLAB | MHSV | MI | MF
| MLA | MPA | MRGBX | MRGBa | MLa | MI16.

Definition mode_name (m : Mode) : string :=
  match m with
  | M1 => "1" | ML => "L" | MP => "P" | MRGB => "RGB" | MRGBA => "RGBA"
  | MCMYK => "CMYK" | MYCbCr => "YCbCr" | MLAB => "LAB" | MHSV => "HSV"
  | MI => "I" | MF => "F" | MLA => "LA" | MPA => "PA" | MRGBX => "RGBX"
  | MRGBa => "RGBa" | MLa => "La" | MI16 => "I;16"
  end.

Global Instance Mode_eq_dec : EqDecision Mode.
Proof. solve_decision. Defined.

(** The modes that carry an alpha channel, and those drawn from a palette. *)
Definition has_alpha (m : Mode) : bool :=
  match m with MRGBA | MLA | MPA | MRGBa | MLa => true | _ => false end.
Definition palette_based (m : Mode) : bool :=
  match m with MP | MPA => true | _ => false end.

Record image : Type := mk_image {
  width : Z;
  height : Z;
  mode : Mode
}.

(** What a [BytesIO] filled by [Image.save(format="JPEG")] holds: the encoded
    picture, described by its size, its mode and the encoder's settings. *)
Record jpeg : Type := mk_jpeg {
  jpeg_width : Z;
  jpeg_height : Z;
  jpeg_mode : Mode;
  jpeg_quality : Z;
  jpeg_optimize : bool
}.

(** ** Observable events *)

Inductive event : Type :=
| Echo (err : bool) (msg : string)
    (* typer.echo / typer.secho; [err] tells the error stream *)
| ImageOpen (path : string)
| ImageResize (w h : Z)
| ImageConvert (m : Mode)
| JpegSave (j : jpeg)
| ClientCreate (endpoint access_key secret_key addressing_style : string)
| UploadFileobj (body : jpeg) (bucket key : string)
                (extra_args : list (string * string)).

(** ** The storage service *)

(** An object is kept with the [ExtraArgs] of the transfer that wrote it
    (its content type and any other metadata). *)
Record s3_object : Type := mk_object {
  body : jpeg;
  extra_args : list (string * string)
}.

Record s3_state : Type := mk_s3 {
  objects : gmap (string * string) s3_object;
  requests : nat   (* transfers attempted so far *)
}.

(** ** The world around the program *)

Inductive path_kind : Type :=
| Missing | Directory | Unreadable | Readable.

Record world : Type := mk_world {
  (* what click's path check sees *)
  stat : string -> path_kind;
  (* open(path) followed by yaml.safe_load *)
  yaml_file : string -> result pyval;
  (* Image.open(path): the header of the picture *)
  image_file : string -> result image;
  (* what decoding the pixel data of the picture raises; None when it
     decodes *)
  image_load : string -> option exn;
  (* os.environ.get *)
  environ : string -> option string;
  (* the answer of the service to the n-th transfer; None is success *)
  s3_response : nat -> option exn;
  (* str() of a sequence or a mapping *)
  repr : pyval -> string;
  (* what showing or installing the shell completion raises; None when it is
     done *)
  shell_completion : option exn
}.

(** ** The monad: exceptions, emitted events, service state *)

Record outcome (A : Type) : Type := mk_outcome {
  res : result A;
  out : list event;
  post : s3_state
}.
Arguments mk_outcome {A} res out post.
Arguments res {A} o.
Arguments out {A} o.
Arguments post {A} o.

Definition M (A : Type) : Type := s3_state -> outcome A.

Definition ret {A} (a : A) : M A := fun s => mk_outcome (Ok a) [] s.
Definition raise {A} (e : exn) : M A := fun s => mk_outcome (Raise e) [] s.
Definition emit (e : event) : M unit := fun s => mk_outcome (Ok tt) [e] s.
Definition lift {A} (r : result A) : M A := fun s => mk_outcome r [] s.

(** [prepend t o]: the outcome [o], reached after the events [t]. *)
Definition prepend {A} (t : list event) (o : outcome A) : outcome A :=
  mk_outcome (res o) (t ++ out o) (post o).
Arguments prepend {A} t !o /.

Definition bind {A B} (m : M A) (f : A -> M B) : M B := fun s =>
  match m s with
  | mk_outcome (Ok a) t s' => prepend t (f a s')
  | mk_outcome (Raise e) t s' => mk_outcome (Raise e) t s'
  end.

(** [try: m except Exception as e: h e] *)
Definition try_except {A} (m : M A) (h : exn -> M A) : M A := fun s =>
  match m s with
  | mk_outcome (Ok a) t s' => mk_outcome (Ok a) t s'
  | mk_outcome (Raise e) t s' => prepend t (h e s')
  end.

Declare Scope py_scope.
Delimit Scope py_scope with py.
Notation "x <- m ; k" := (bind m (fun x => k))
  (at level 100, m at next level, right associativity) : py_scope.
Notation "m ;; k" := (bind m (fun _ => k))
  (at level 100, right associativity) : py_scope.
Open Scope py_scope.

Definition echo (msg : string) : M unit := emit (Echo false msg).
Definition secho_err (msg : string) : M unit := emit (Echo true msg).

(** ** Python's built-in operations on the values above

    They have no effect: each returns a value or raises. *)

(** [bool(v)], as [not v] uses it. *)
Definition truthy (v : pyval) : bool :=
  match v with
  | PNone => false
  | PBool b => b
  | PInt n => negb (n =? 0)%Z
  | PStr s => negb (String.eqb s "")
  | PList l => match l with [] => false | _ => true end
  | PDict d => match d with [] => false | _ => true end
  end.

(** [not v] for what [os.environ.get] returns: [None] or a string. *)
Definition env_falsy (v : option string) : bool :=
  match v with
  | None => true
  | Some s => String.eqb s ""
  end.

Definition type_name (v : pyval) : string :=
  match v with
  | PNone => "NoneType"
  | PBool _ => "bool"
  | PInt _ => "int"
  | PStr _ => "str"
  | PList _ => "list"
  | PDict _ => "dict"
  end.

Fixpoint dict_get (d : list (string * pyval)) (k : string) : option pyval :=
  match d with
  | [] => None
  | (k', v) :: d' => if String.eqb k' k then Some v else dict_get d' k
  end.

(** [v.get(k)]: only mappings have the method. *)
Definition py_get (v : pyval) (k : string) : result pyval :=
  match v with
  | PDict d => Ok (match dict_get d k with Some x => x | None => PNone end)
  | _ => Raise (PyException "AttributeError"
                  ("'" +:+ type_name v +:+ "' object has no attribute 'get'"))
  end.

(** A Python string counts code points; the strings here are UTF-8. *)
Definition is_continuation (c : ascii) : bool :=
  let n := Ascii.N_of_ascii c in ((128 <=? n) && (n <? 192))%N.

Fixpoint code_points (s : string) : list string :=
  match s with
  | EmptyString => []
  | String c rest =>
      let gs := code_points rest in
      match rest with
      | String c' _ =>
          if is_continuation c' then
            match gs with
            | g :: gs' => String c g :: gs'
            | [] => [String c EmptyString]
            end
          else String c EmptyString :: gs
      | EmptyString => [String c EmptyString]
      end
  end.

(** [len(v)] *)
Definition py_len (v : pyval) : result Z :=
  match v with
  | PStr s => Ok (Z.of_nat (length (code_points s)))
  | PList l => Ok (Z.of_nat (length l))
  | PDict d => Ok (Z.of_nat (length d))
  | _ => Raise (PyException "TypeError"
                  ("object of type '" +:+ type_name v +:+ "' has no len()"))
  end.

(** [v[i]] for an integer [i] known to satisfy [0 <= i < len(v)]: the guard
    of the command lets no other index through.  The mappings here have
    string keys, so an integer is never one of their keys. *)
Definition py_getitem (v : pyval) (i : Z) : result pyval :=
  match v with
  | PList l =>
      match l !! Z.to_nat i with
      | Some x => Ok x
      | None => Raise (PyException "IndexError" "list index out of range")
      end
  | PStr s =>
      match code_points s !! Z.to_nat i with
      | Some c => Ok (PStr c)
      | None => Raise (PyException "IndexError" "string index out of range")
      end
  | PDict _ => Raise (PyException "KeyError" (pretty i))
  | _ => Raise (PyException "TypeError"
                  ("'" +:+ type_name v +:+ "' object is not subscriptable"))
  end.

(** [str(v)], as an f-string formats a value. *)
Definition py_str (w : world) (v : pyval) : string :=
  match v with
  | PNone => "None"
  | PBool true => "True"
  | PBool false => "False"
  | PInt n => pretty n
  | PStr s => s
  | _ => repr w v
  end.

(** ** Floating point: IEEE 754 binary64, as CPython's [float] *)

Definition prec : Z := 53.
Definition emax : Z := 1024.

Definition is_finite (x : spec_float) : bool :=
  match x with
  | S754_zero _ | S754_finite _ _ _ => true
  | _ => false
  end.

(** [float(n)], correctly rounded. *)
Definition float_of_int (n : Z) : result spec_float :=
  let x := binary_normalize prec emax n 0 false in
  if is_finite x then Ok x
  else Raise (PyException "OverflowError" "int too large to convert to float").

(** [a / b] on integers: the correctly rounded quotient.  Both operands are
    sizes of a decoded picture, below 2^31, so their conversion is exact and
    the IEEE division of the converted operands is that quotient. *)
Definition py_truediv (a b : Z) : result spec_float :=
  if (b =? 0)%Z then Raise (PyException "ZeroDivisionError" "division by zero")
  else
    let q := SFdiv prec emax (binary_normalize prec emax a 0 false)
                             (binary_normalize prec emax b 0 false) in
    if is_finite q then Ok q
    else Raise (PyException "OverflowError"
                  "integer division result too large for a float").

(** [n * x] for an integer [n] and a float [x]. *)
Definition py_mul_int_float (n : Z) (x : spec_float) : result spec_float :=
  match float_of_int n with
  | Ok fn => Ok (SFmul prec emax fn x)
  | Raise e => Raise e
  end.

(** [int(x)]: truncation toward zero. *)
Definition py_int (x : spec_float) : result Z :=
  match x with
  | S754_zero _ => Ok 0
  | S754_finite s m e =>
      let a := if (0 <=? e)%Z then Z.pos m * 2 ^ e else Z.pos m / 2 ^ (- e) in
      Ok (if s then - a else a)
  | S754_infinity _ =>
      Raise (PyException "OverflowError"
               "cannot convert float infinity to integer")
  | S754_nan =>
      Raise (PyException "ValueError" "cannot convert float NaN to integer")
  end.

(** ** Pillow *)

(** [img.resize((w, h), LANCZOS)].  [Image.open] is lazy: it reads the header
    of the file, and the pixel data is decoded by the first operation that
    needs it, here the resize, which then raises what the decoder raises
    ([pixels] is that exception, if there is one).  The mode is kept; a size
    below one pixel is refused. *)
Definition pil_resize (pixels : option exn) (img : image) (w h : Z) : M image :=
  emit (ImageResize w h);;
  match pixels with
  | Some e => raise e
  | None =>
      if ((w <? 1) || (h <? 1))%Z then
        raise (PyException "ValueError" "height and width must be > 0")
      else ret (mk_image w h (mode img))
  end.

(** [img.convert(m)] *)
Definition pil_convert (img : image) (m : Mode) : M image :=
  emit (ImageConvert m);;
  ret (mk_image (width img) (height img) m).

(** The modes the JPEG encoder writes, and the largest side it accepts. *)
Definition jpeg_writable (m : Mode) : bool :=
  match m with
  | M1 | ML | MRGB | MRGBX | MCMYK | MYCbCr => true
  | _ => false
  end.

Definition JPEG_MAX_DIMENSION : Z := 65500.

(** [img.save(output, format="JPEG", quality=q, optimize=o)] into a fresh
    [BytesIO], followed by [output.seek(0)]. *)
Definition pil_save_jpeg (img : image) (q : Z) (o : bool) : M jpeg :=
  if ((width img =? 0) || (height img =? 0))%Z then
    raise (PyException "ValueError" "cannot write empty image as JPEG")
  else if negb (jpeg_writable (mode img)) then
    raise (PyException "OSError"
             ("cannot write mode " +:+ mode_name (mode img) +:+ " as JPEG"))
  else if ((JPEG_MAX_DIMENSION <? width img)
           || (JPEG_MAX_DIMENSION <? height img))%Z then
    raise (PyException "OSError" "encoder error -2 when writing image file")
  else
    let j := mk_jpeg (width img) (height img) (mode img) q o in
    emit (JpegSave j);;
    ret j.

(** ** [resize_image] (images.py, lines 24-52) *)

Definition resize_image (w : world) (image_path : string) (target_width : Z)
  : M jpeg :=
  emit (ImageOpen image_path);;
  img <- lift (image_file w image_path);
  aspect_ratio <- lift (py_truediv (height img) (width img));
  scaled <- lift (py_mul_int_float target_width aspect_ratio);
  target_height <- lift (py_int scaled);
  resized_img <- pil_resize (image_load w image_path) img
                            target_width target_height;
  resized_img <- (if decide (mode resized_img = MRGBA \/ mode resized_img = MP)
                  then pil_convert resized_img MRGB
                  else ret resized_img);
  output <- pil_save_jpeg resized_img 85 true;
  ret output.

(** ** [upload_to_s3] (images.py, lines 55-88) *)

Definition S3_ENDPOINT : string := "https://s3.timeweb.cloud".
Definition S3_BUCKET : string := "302f9aa7-62c4d4d3-ccfd-4077-86c8-cca52e0da376".

(** [boto3.client('s3', endpoint_url=.., aws_access_key_id=..,
    aws_secret_access_key=.., config=Config(s3={'addressing_style': ..}))] *)
Definition boto3_client (endpoint access_key secret_key style : string)
  : M unit :=
  emit (ClientCreate endpoint access_key secret_key style).

(** [s3_client.upload_fileobj(file_obj, bucket, key, ExtraArgs=extra)].  A key
    that is not a string is refused when the parameters are checked; otherwise
    the transfer is attempted and the service answers.  On success the object
    is stored under (bucket, key); a failed transfer stores nothing. *)
Definition upload_fileobj (w : world) (file_obj : jpeg) (bucket : string)
    (key : pyval) (extra : list (string * string)) : M unit :=
  match key with
  | PStr k =>
      emit (UploadFileobj file_obj bucket k extra);;
      (fun s =>
         match s3_response w (requests s) with
         | None =>
             mk_outcome (Ok tt) []
               (mk_s3 (<[(bucket, k) := mk_object file_obj extra]> (objects s))
                      (S (requests s)))
         | Some e =>
             mk_outcome (Raise e) [] (mk_s3 (objects s) (S (requests s)))
         end)
  | _ => raise (PyException "ParamValidationError"
                  "Invalid type for parameter Key")
  end.

Definition upload_to_s3 (w : world) (file_obj : jpeg) (s3_key : pyval)
    (bucket : string) : M unit :=
  let s3_access_key := environ w "S3_ACCESS_KEY" in
  let s3_secret_key := environ w "S3_SECRET_KEY" in
  if env_falsy s3_access_key || env_falsy s3_secret_key then
    secho_err "✗ Error: S3_ACCESS_KEY and S3_SECRET_KEY environment variables must be set";;
    raise (Exit 1)
  else
    boto3_client S3_ENDPOINT (default "" s3_access_key)
                 (default "" s3_secret_key) "path";;
    upload_fileobj w file_obj bucket s3_key [("ContentType", "image/jpeg")];;
    echo ("  ✓ Uploaded to s3://" +:+ bucket +:+ "/" +:+ py_str w s3_key).

(** ** The command [upload] (images.py, lines 91-183) *)

Definition nl : string := String (Ascii.ascii_of_nat 10) EmptyString.

(** Lines 130-154: read the manifest and pick the two keys of the entry. *)
Definition manifest_loader (w : world) (summit_path : string) (index : Z)
  : M (pyval * pyval) :=
  echo ("📖 Reading summit file: " +:+ summit_path);;
  summit_data <- lift (yaml_file w summit_path);
  images <- lift (py_get summit_data "images");
  if negb (truthy images) then
    secho_err "✗ Error: No 'images' list found in YAML file";;
    raise (Exit 1)
  else
  out_of_range <- (if (index <? 0)%Z then ret true
                   else n <- lift (py_len images); ret (index >=? n)%Z);
  if (out_of_range : bool) then
    n <- lift (py_len images);
    secho_err ("✗ Error: Index " +:+ pretty index +:+ " out of range. Found "
               +:+ pretty n +:+ " images.");;
    raise (Exit 1)
  else
  image_entry <- lift (py_getitem images index);
  url <- lift (py_get image_entry "url");
  preview_url <- lift (py_get image_entry "preview_url");
  if negb (truthy url) || negb (truthy preview_url) then
    secho_err "✗ Error: 'url' or 'preview_url' not found in image entry";;
    raise (Exit 1)
  else ret (url, preview_url).

(** Lines 156-173: resize twice, then upload twice. *)
Definition resize_and_upload (w : world) (image_path : string) (index : Z)
    (bucket : string) (url preview_url : pyval) : M unit :=
  echo ("📷 Processing image at index " +:+ pretty index +:+ ":");;
  echo ("  Main URL: " +:+ py_str w url);;
  echo ("  Preview URL: " +:+ py_str w preview_url);;
  echo (nl +:+ "🔄 Resizing image from: " +:+ image_path);;
  echo "  Creating main version (1600px width)...";;
  main_image <- resize_image w image_path 1600;
  echo "  Creating preview version (75px width)...";;
  preview_image <- resize_image w image_path 75;
  echo (nl +:+ "☁️  Uploading to S3 bucket '" +:+ bucket +:+ "':");;
  upload_to_s3 w main_image url bucket;;
  upload_to_s3 w preview_image preview_url bucket;;
  echo (nl +:+ "✓ Successfully uploaded images to S3!").

(** The three handlers of lines 175-183. *)
Definition handler (e : exn) : M unit :=
  match e with
  | FileNotFoundError _ =>
      secho_err ("✗ Error: File not found - " +:+ exn_str e);;
      raise (Exit 1)
  | YAMLError _ =>
      secho_err ("✗ Error parsing YAML file: " +:+ exn_str e);;
      raise (Exit 1)
  | _ =>
      secho_err ("✗ Error: " +:+ exn_str e);;
      raise (Exit 1)
  end.

(** The [try] block of lines 129-173. *)
Definition command_body (w : world) (image_path summit_path : string)
    (index : Z) (bucket : string) : M unit :=
  keys <- manifest_loader w summit_path index;
  resize_and_upload w image_path index bucket keys.1 keys.2.

Definition upload (w : world) (image_path summit_path : string) (index : Z)
    (bucket : string) : M unit :=
  try_except (command_body w image_path summit_path index bucket) handler.

(** ** The Typer application

    The options as the command line gives them; [None] is an option left
    out (for [--index], also a value that is not an integer).  click checks
    the two paths ([exists], [file_okay], not [dir_okay], [readable]) and the
    required options before the command is called; a refused command line is
    a usage error, which ends the process with click's code 2.

    Besides the four options of the command there are those the framework
    adds to it: click's [--help] and Typer's [--install-completion] and
    [--show-completion].  They are eager: click serves the first of them as
    soon as the command line is parsed, before the other options are checked
    and without calling the command, and the process ends there.  What the
    framework prints itself (the help text, the completion script, the usage
    error) is not part of the trace. *)

Inductive eager_option : Type :=
| Help | InstallCompletion | ShowCompletion.

Record cli : Type := mk_cli {
  opt_image_path : option string;
  opt_summit_path : option string;
  opt_index : option Z;
  opt_bucket : option string;
  (* the first of the framework's own options, if any is given *)
  opt_eager : option eager_option
}.

Definition USAGE_ERROR : Z := 2.

Definition path_ok (w : world) (p : string) : bool :=
  match stat w p with
  | Readable => true
  | _ => false
  end.

Definition cli_valid (w : world) (c : cli) : bool :=
  match opt_image_path c, opt_summit_path c, opt_index c with
  | Some ip, Some sp, Some _ => path_ok w ip && path_ok w sp
  | _, _, _ => false
  end.

(** The callbacks of the eager options: the help text is printed and the
    process ends with code 0; so it does after the completion script was
    shown or installed, unless that raised. *)
Definition serve (w : world) (o : eager_option) : M unit :=
  match o with
  | Help => ret tt
  | InstallCompletion | ShowCompletion =>
      match shell_completion w with
      | None => ret tt
      | Some e => raise e
      end
  end.

Definition app (w : world) (c : cli) : M unit :=
  match opt_eager c with
  | Some o => serve w o
  | None =>
      match opt_image_path c, opt_summit_path c, opt_index c with
      | Some image_path, Some summit_path, Some index =>
          if path_ok w image_path && path_ok w summit_path then
            upload w image_path summit_path index
                   (default S3_BUCKET (opt_bucket c))
          else raise (Exit USAGE_ERROR)
      | _, _, _ => raise (Exit USAGE_ERROR)
      end
  end.

(** The exit code of the process: 0 when the command returns or an eager
    option was served, the code of the [Exit] raised otherwise (1 with a
    traceback for any other exception that would escape). *)
Definition exit_code (o : outcome unit) : Z :=
  match res o with
  | Ok _ => 0
  | Raise (Exit c) => c
  | Raise _ => 1
  end.

Definition s3_empty : s3_state := mk_s3 ∅ 0.

(** * The vocabulary of the properties *)

(** ** Classes of events *)

Definition is_echo (e : event) : bool :=
  match e with Echo _ _ => true | _ => false end.

Definition is_image_op (e : event) : bool :=
  match e with
  | ImageOpen _ | ImageResize _ _ | ImageConvert _ | JpegSave _ => true
  | _ => false
  end.

(** The calls into the storage client. *)
Definition is_network (e : event) : bool :=
  match e with
  | ClientCreate _ _ _ _ | UploadFileobj _ _ _ _ => true
  | _ => false
  end.

Definition silent (t : list event) : Prop :=
  Forall (fun e => is_network e = false) t.

(** The steps of the workflow that a trace shows: a resize that completed
    (its buffer was encoded), a client that was created and a transfer that
    was attempted. *)
Definition is_step (e : event) : bool :=
  match e with
  | JpegSave _ | ClientCreate _ _ _ _ | UploadFileobj _ _ _ _ => true
  | _ => false
  end.

Fixpoint steps (t : list event) : list event :=
  match t with
  | [] => []
  | e :: t' => if is_step e then e :: steps t' else steps t'
  end.

(** [confined P m]: running [m] never changes the state of the storage
    service and emits only events of the class [P]. *)
Definition confined {A} (P : event -> bool) (m : M A) : Prop :=
  forall s, post (m s) = s /\ Forall P (out (m s)).

(** ** The lines the command prints *)

Definition reading (summit_path : string) : event :=
  Echo false ("📖 Reading summit file: " +:+ summit_path).

Definition NO_IMAGES : string := "✗ Error: No 'images' list found in YAML file".

Definition out_of_range_message (index n : Z) : string :=
  "✗ Error: Index " +:+ pretty index +:+ " out of range. Found "
  +:+ pretty n +:+ " images.".

Definition CREDENTIALS_MESSAGE : string :=
  "✗ Error: S3_ACCESS_KEY and S3_SECRET_KEY environment variables must be set".

(** The line a failure ends with on the error stream. *)
Definition failure_message (e : exn) : string :=
  match e with
  | FileNotFoundError m => "✗ Error: File not found - " +:+ m
  | YAMLError m => "✗ Error parsing YAML file: " +:+ m
  | Exit _ => "✗ Error: "
  | PyException _ m => "✗ Error: " +:+ m
  end.

(** [needle in hay], on strings. *)
Fixpoint has_substring (needle hay : string) : bool :=
  String.prefix needle hay ||
  match hay with
  | EmptyString => false
  | String _ hay' => has_substring needle hay'
  end.

(** ** The size and the mode of a buffer *)

(** The height [resize_image] asks for: [int(target_width * (height / width))]
    in double precision. *)
Definition target_height (img : image) (target_width : Z) : result Z :=
  match py_truediv (height img) (width img) with
  | Ok aspect_ratio =>
      match py_mul_int_float target_width aspect_ratio with
      | Ok scaled => py_int scaled
      | Raise e => Raise e
      end
  | Raise e => Raise e
  end.

(** [round(n / d)] for d > 0, as Python rounds (ties to the even integer):
    the height the specification asks for is
    [rounded_height W H0 W0 = round(W * H0 / W0)]. *)
Definition round_div (n d : Z) : Z :=
  let q := n / d in
  let r := n mod d in
  if (2 * r <? d)%Z then q
  else if (d <? 2 * r)%Z then q + 1
  else if Z.even q then q else q + 1.

Definition rounded_height (W H0 W0 : Z) : Z := round_div (W * H0) W0.

(** The mode that reaches the encoder, and the conversion on the way. *)
Definition encoded_mode (m : Mode) : Mode :=
  if decide (m = MRGBA \/ m = MP) then MRGB else m.

Definition conversion (m : Mode) : list event :=
  if decide (m = MRGBA \/ m = MP) then [ImageConvert MRGB] else [].

(** ** The four ways [upload_to_s3] ends *)

Definition credentials_missing (w : world) : bool :=
  env_falsy (environ w "S3_ACCESS_KEY") || env_falsy (environ w "S3_SECRET_KEY").

Definition JPEG_ARGS : list (string * string) := [("ContentType", "image/jpeg")].

Definition the_client (w : world) : event :=
  ClientCreate S3_ENDPOINT (default "" (environ w "S3_ACCESS_KEY"))
               (default "" (environ w "S3_SECRET_KEY")) "path".

(** The state of the service after a transfer of [j] to (b, k) that it
    accepted, and after one that it refused. *)
Definition stored (s : s3_state) (j : jpeg) (b k : string) : s3_state :=
  mk_s3 (<[(b, k) := mk_object j JPEG_ARGS]> (objects s)) (S (requests s)).
Definition refused (s : s3_state) : s3_state :=
  mk_s3 (objects s) (S (requests s)).

Inductive upload_case (w : world) (j : jpeg) (key : pyval) (b : string)
    (s : s3_state) : outcome unit -> Prop :=
| upload_no_credentials :
    credentials_missing w = true ->
    upload_case w j key b s
      (mk_outcome (Raise (Exit 1)) [Echo true CREDENTIALS_MESSAGE] s)
| upload_bad_key :
    credentials_missing w = false ->
    (forall k, key <> PStr k) ->
    upload_case w j key b s
      (mk_outcome (Raise (PyException "ParamValidationError"
                            "Invalid type for parameter Key"))
                  [the_client w] s)
| upload_refused k e :
    credentials_missing w = false ->
    key = PStr k ->
    s3_response w (requests s) = Some e ->
    upload_case w j key b s
      (mk_outcome (Raise e) [the_client w; UploadFileobj j b k JPEG_ARGS]
                  (refused s))
| upload_stored k :
    credentials_missing w = false ->
    key = PStr k ->
    s3_response w (requests s) = None ->
    upload_case w j key b s
      (mk_outcome (Ok tt)
         [the_client w; UploadFileobj j b k JPEG_ARGS;
          Echo false ("  ✓ Uploaded to s3://" +:+ b +:+ "/" +:+ k)]
         (stored s j b k)).

(** ** The six ways the command ends

    A run of [upload] stops at the first step that raises; the handlers then
    print one line and raise [Exit 1]. *)

Section Run.
Context (w : world) (image_path summit_path : string) (index : Z)
        (bucket : string).

Definition announce (url preview_url : pyval) : list event :=
  [ Echo false ("📷 Processing image at index " +:+ pretty index +:+ ":");
    Echo false ("  Main URL: " +:+ py_str w url);
    Echo false ("  Preview URL: " +:+ py_str w preview_url);
    Echo false (nl +:+ "🔄 Resizing image from: " +:+ image_path);
    Echo false "  Creating main version (1600px width)..." ].

Definition preview_note : event :=
  Echo false "  Creating preview version (75px width)...".

Definition uploading : event :=
  Echo false (nl +:+ "☁️  Uploading to S3 bucket '" +:+ bucket +:+ "':").

Definition success : event :=
  Echo false (nl +:+ "✓ Successfully uploaded images to S3!").

Definition failed (e : exn) : event := Echo true (failure_message e).

Inductive run_case (s : s3_state) : outcome unit -> Prop :=
| run_manifest_failed e t1 :
    manifest_loader w summit_path index s = mk_outcome (Raise e) t1 s ->
    run_case s (mk_outcome (Raise (Exit 1)) (t1 ++ [failed e]) s)
| run_main_resize_failed url pre t1 e t2 :
    manifest_loader w summit_path index s = mk_outcome (Ok (url, pre)) t1 s ->
    resize_image w image_path 1600 s = mk_outcome (Raise e) t2 s ->
    run_case s
      (mk_outcome (Raise (Exit 1))
         (t1 ++ announce url pre ++ t2 ++ [failed e]) s)
| run_preview_resize_failed url pre t1 jm t2 e t3 :
    manifest_loader w summit_path index s = mk_outcome (Ok (url, pre)) t1 s ->
    resize_image w image_path 1600 s = mk_outcome (Ok jm) t2 s ->
    resize_image w image_path 75 s = mk_outcome (Raise e) t3 s ->
    run_case s
      (mk_outcome (Raise (Exit 1))
         (t1 ++ announce url pre ++ t2 ++ preview_note :: t3 ++ [failed e]) s)
| run_main_upload_failed url pre t1 jm t2 jp t3 e t4 s4 :
    manifest_loader w summit_path index s = mk_outcome (Ok (url, pre)) t1 s ->
    resize_image w image_path 1600 s = mk_outcome (Ok jm) t2 s ->
    resize_image w image_path 75 s = mk_outcome (Ok jp) t3 s ->
    upload_to_s3 w jm url bucket s = mk_outcome (Raise e) t4 s4 ->
    run_case s
      (mk_outcome (Raise (Exit 1))
         (t1 ++ announce url pre ++ t2 ++ preview_note :: t3
             ++ uploading :: t4 ++ [failed e]) s4)
| run_preview_upload_failed url pre t1 jm t2 jp t3 t4 s4 e t5 s5 :
    manifest_loader w summit_path index s = mk_outcome (Ok (url, pre)) t1 s ->
    resize_image w image_path 1600 s = mk_outcome (Ok jm) t2 s ->
    resize_image w image_path 75 s = mk_outcome (Ok jp) t3 s ->
    upload_to_s3 w jm url bucket s = mk_outcome (Ok tt) t4 s4 ->
    upload_to_s3 w jp pre bucket s4 = mk_outcome (Raise e) t5 s5 ->
    run_case s
      (mk_outcome (Raise (Exit 1))
         (t1 ++ announce url pre ++ t2 ++ preview_note :: t3
             ++ uploading :: t4 ++ t5 ++ [failed e]) s5)
| run_succeeded url pre t1 jm t2 jp t3 t4 s4 t5 s5 :
    manifest_loader w summit_path index s = mk_outcome (Ok (url, pre)) t1 s ->
    resize_image w image_path 1600 s = mk_outcome (Ok jm) t2 s ->
    resize_image w image_path 75 s = mk_outcome (Ok jp) t3 s ->
    upload_to_s3 w jm url bucket s = mk_outcome (Ok tt) t4 s4 ->
    upload_to_s3 w jp pre bucket s4 = mk_outcome (Ok tt) t5 s5 ->
    run_case s
      (mk_outcome (Ok tt)
         (t1 ++ announce url pre ++ t2 ++ preview_note :: t3
             ++ uploading :: t4 ++ t5 ++ [success]) s5).

End Run.

(** ** How far a run gets

    The steps of a complete run, in their order: the two resizes, then for
    each buffer a client and a transfer. *)

Definition plan (w : world) (bucket : string) (jm jp : jpeg) (u p : string)
  : list event :=
  [ JpegSave jm; JpegSave jp;
    the_client w; UploadFileobj jm bucket u JPEG_ARGS;
    the_client w; UploadFileobj jp bucket p JPEG_ARGS ].

(** [progress w b keys s t r s']: a run from the state [s], where the loader
    gave [keys] (or failed), shows the steps [t], ends with [r] and leaves
    the service in [s'].  The steps are always a prefix of the plan. *)
Inductive progress (w : world) (b : string) (keys : option (pyval * pyval))
    (s : s3_state) : list event -> result unit -> s3_state -> Prop :=
| stopped_early jm jp u p k :
    (k <= 3)%nat ->
    (keys = None -> k = 0%nat) ->
    jpeg_width jm = 1600 -> jpeg_width jp = 75 ->
    progress w b keys s (take k (plan w b jm jp u p)) (Raise (Exit 1)) s
| main_refused jm jp u pre e :
    keys = Some (PStr u, pre) ->
    jpeg_width jm = 1600 -> jpeg_width jp = 75 ->
    s3_response w (requests s) = Some e ->
    progress w b keys s (take 4 (plan w b jm jp u "")) (Raise (Exit 1))
             (refused s)
| preview_not_sent jm jp u pre :
    keys = Some (PStr u, pre) ->
    (forall p, pre <> PStr p) ->
    jpeg_width jm = 1600 -> jpeg_width jp = 75 ->
    s3_response w (requests s) = None ->
    progress w b keys s (take 5 (plan w b jm jp u "")) (Raise (Exit 1))
             (stored s jm b u)
| preview_refused jm jp u p e :
    keys = Some (PStr u, PStr p) ->
    jpeg_width jm = 1600 -> jpeg_width jp = 75 ->
    s3_response w (requests s) = None ->
    s3_response w (S (requests s)) = Some e ->
    progress w b keys s (plan w b jm jp u p) (Raise (Exit 1))
             (refused (stored s jm b u))
| both_stored jm jp u p :
    keys = Some (PStr u, PStr p) ->
    jpeg_width jm = 1600 -> jpeg_width jp = 75 ->
    s3_response w (requests s) = None ->
    s3_response w (S (requests s)) = None ->
    progress w b keys s (plan w b jm jp u p) (Ok tt)
             (stored (stored s jm b u) jp b p).

(** The keys the loader returned, if it returned. *)
Definition loaded (w : world) (sp : string) (i : Z) (s : s3_state)
  : option (pyval * pyval) :=
  match res (manifest_loader w sp i s) with
  | Ok keys => Some keys
  | Raise _ => None
  end.

(** A buffer of the given width, for the steps a run did not reach. *)
Definition blank (W : Z) : jpeg := mk_jpeg W 0 MRGB 85 true.

(** ** The application *)

(** The bucket a command line designates. *)
Definition destination (c : cli) : string :=
  match opt_bucket c with
  | Some b => b
  | None => S3_BUCKET
  end.


(** ** Worlds *)

(** The same world with the variable [name] removed from the environment. *)
Definition unset (name : string) (w : world) : world :=
  mk_world (stat w) (yaml_file w) (image_file w) (image_load w)
           (fun n => if String.eqb n name then None else environ w n)
           (s3_response w) (repr w) (shell_completion w).

(** A world where every path is a readable file, the manifest and the
    picture are the given ones, the picture decodes and the service accepts
    every transfer. *)
Definition world_of (manifest : pyval) (img : image)
    (env : string -> option string) : world :=
  mk_world (fun _ => Readable) (fun _ => Ok manifest) (fun _ => Ok img)
           (fun _ => None) env (fun _ => None) (fun _ => "") None.

Definition sample_manifest : pyval :=
  PDict [("images",
          PList [PDict [("url", PStr "a/main.jpg");
                        ("preview_url", PStr "a/prev.jpg")]])].

Definition two_entries : list pyval :=
  [ PDict [("url", PStr "a/main.jpg"); ("preview_url", PStr "a/prev.jpg")];
    PDict [("url", PStr "b/main.jpg"); ("preview_url", PStr "b/prev.jpg")] ].

Definition no_credentials : string -> option string := fun _ => None.

Definition empty_access_key : string -> option string :=
  fun n => if String.eqb n "S3_ACCESS_KEY" then Some "" else Some "secret".

(** A service that stores the first transfer and refuses the second. *)
Definition refusing_second : world :=
  mk_world (fun _ => Readable) (fun _ => Ok sample_manifest)
           (fun _ => Ok (mk_image 3200 1800 MRGB))
           (fun _ => None)
           (fun _ => Some "k")
           (fun n => if decide (n = 1%nat)
                     then Some (PyException "S3UploadFailedError" "503")
                     else None)
           (fun _ => "") None.

(** A world where the picture named on the command line does not exist. *)
Definition no_such_file : world :=
  mk_world (fun p => if String.eqb p "photo.png" then Missing else Readable)
           (fun _ => Ok sample_manifest)
           (fun _ => Raise (FileNotFoundError "photo.png"))
           (fun _ => None)
           (fun _ => Some "k") (fun _ => None) (fun _ => "") None.

(** ** More lines, classes of events and worlds *)

(** [e.get(k)] on a mapping: the value, or [None] when the key is absent. *)
Definition field (e : list (string * pyval)) (k : string) : pyval :=
  match dict_get e k with Some x => x | None => PNone end.

(** The error line of lines 151-154. *)
Definition MISSING_FIELD : string :=
  "✗ Error: 'url' or 'preview_url' not found in image entry".

(** The text of the AttributeError that [v.get] raises on a value without
    the method. *)
Definition no_get_attribute (v : pyval) : string :=
  "'" +:+ type_name v +:+ "' object has no attribute 'get'".

Definition is_mapping (v : pyval) : bool :=
  match v with PDict _ => true | _ => false end.

(** The document has no top-level key [images], or an empty sequence under
    it.  A document that is not a mapping (an empty file, a sequence, a
    scalar) has no key at all. *)
Definition images_missing (v : pyval) : Prop :=
  match v with
  | PDict d => dict_get d "images" = None \/ dict_get d "images" = Some (PList [])
  | _ => True
  end.

(** The lines on the error stream when the images are missing: the
    missing-images error (followed by the line of the handler that catches
    the exit) for a mapping, the line of the AttributeError otherwise. *)
Definition missing_images_lines (v : pyval) : list event :=
  if is_mapping v then [Echo true NO_IMAGES; Echo true "✗ Error: "]
  else [Echo true ("✗ Error: '" +:+ type_name v
                   +:+ "' object has no attribute 'get'")].

(** A world where reading the manifest raises [e]. *)
Definition unreadable_manifest (e : exn) : world :=
  mk_world (fun _ => Readable) (fun _ => Raise e)
           (fun _ => Ok (mk_image 3200 1800 MRGB))
           (fun _ => None)
           (fun _ => Some "k") (fun _ => None) (fun _ => "") None.

Definition entry_without_preview : list (string * pyval) :=
  [("url", PStr "a/main.jpg"); ("preview_url", PStr "")].

(** An environment with both credentials. *)
Definition with_credentials : string -> option string :=
  fun n => if String.eqb n "S3_ACCESS_KEY" then Some "AK" else Some "SK".

(** A service that refuses the first transfer. *)
Definition refusing_first : world :=
  mk_world (fun _ => Readable) (fun _ => Ok sample_manifest)
           (fun _ => Ok (mk_image 3200 1800 MRGB))
           (fun _ => None)
           with_credentials
           (fun n => if decide (n = 0%nat)
                     then Some (PyException "ClientError" "AccessDenied")
                     else None)
           (fun _ => "") None.




(** [stateless m]: what [m] returns and emits does not depend on the state of
    the service, which it leaves as it is. *)
Definition stateless {A} (m : M A) : Prop :=
  forall s s', m s' = mk_outcome (res (m s)) (out (m s)) s'.

(** * Properties *)

(** ** Classes of events *)

Lemma steps_app (t1 t2 : list event) : steps (t1 ++ t2) = steps t1 ++ steps t2.
Proof.
  induction t1 as [|e t1 IH]; [done|].
  simpl. destruct (is_step e); by rewrite IH.
Qed.

Lemma steps_echo (t : list event) : Forall is_echo t -> steps t = [].
Proof.
  induction 1 as [|e t He _ IH]; [done|].
  by destruct e.
Qed.

Lemma echo_not_network (t : list event) :
  Forall is_echo t -> Forall (fun e => is_network e = false) t.
Proof. intros H. eapply Forall_impl; [exact H|]. by intros []. Qed.

Lemma image_op_not_network (t : list event) :
  Forall is_image_op t -> Forall (fun e => is_network e = false) t.
Proof. intros H. eapply Forall_impl; [exact H|]. by intros []. Qed.

(** ** The monad *)

Lemma prepend_nil {A} (o : outcome A) : prepend [] o = o.
Proof. by destruct o. Qed.

Lemma prepend_prepend {A} (t1 t2 : list event) (o : outcome A) :
  prepend t1 (prepend t2 o) = prepend (t1 ++ t2) o.
Proof. destruct o. simpl. by rewrite app_assoc. Qed.

Lemma res_prepend {A} (t : list event) (o : outcome A) :
  res (prepend t o) = res o.
Proof. done. Qed.

Lemma out_prepend {A} (t : list event) (o : outcome A) :
  out (prepend t o) = t ++ out o.
Proof. done. Qed.

Lemma post_prepend {A} (t : list event) (o : outcome A) :
  post (prepend t o) = post o.
Proof. done. Qed.

Lemma bind_ret {A B} (a : A) (f : A -> M B) (s : s3_state) :
  bind (ret a) f s = f a s.
Proof. unfold bind, ret. apply prepend_nil. Qed.

Lemma bind_raise {A B} (e : exn) (f : A -> M B) (s : s3_state) :
  bind (raise e) f s = mk_outcome (Raise e) [] s.
Proof. done. Qed.

Lemma bind_lift {A B} (r : result A) (f : A -> M B) (s : s3_state) :
  bind (lift r) f s =
  match r with
  | Ok a => f a s
  | Raise e => mk_outcome (Raise e) [] s
  end.
Proof. unfold bind, lift. destruct r; [apply prepend_nil|done]. Qed.

Lemma bind_emit {B} (e : event) (f : unit -> M B) (s : s3_state) :
  bind (emit e) f s = prepend [e] (f tt s).
Proof. done. Qed.

Lemma bind_bind {A B C} (m : M A) (f : A -> M B) (g : B -> M C) (s : s3_state) :
  bind (bind m f) g s = bind m (fun a => bind (f a) g) s.
Proof.
  unfold bind. destruct (m s) as [[a|e] t s']; [|done].
  destruct (f a s') as [[b|e] t' s'']; simpl; [|done].
  destruct (g b s'') as [r t'' s3]; simpl. by rewrite app_assoc.
Qed.

(** Running [bind m f] from the outcome of [m]. *)
Lemma bind_run {A B} (m : M A) (f : A -> M B) (s : s3_state) :
  bind m f s =
  match res (m s) with
  | Ok a => prepend (out (m s)) (f a (post (m s)))
  | Raise e => mk_outcome (Raise e) (out (m s)) (post (m s))
  end.
Proof. unfold bind. by destruct (m s) as [[a|e] t s']. Qed.

Ltac run_M :=
  repeat first
    [ rewrite bind_emit | rewrite bind_lift | rewrite bind_ret
    | rewrite bind_raise | rewrite bind_bind ].

(** ** The handlers *)

Lemma handler_spec (e : exn) (s : s3_state) :
  handler e s = mk_outcome (Raise (Exit 1)) [Echo true (failure_message e)] s.
Proof. by destruct e. Qed.

(** ** Computations that leave the service alone *)

Section Confined.
Context (P : event -> bool).

Lemma confined_ret {A} (a : A) : confined P (ret a).
Proof. by intros s. Qed.

Lemma confined_raise {A} (e : exn) : confined P (@raise A e).
Proof. by intros s. Qed.

Lemma confined_lift {A} (r : result A) : confined P (lift r).
Proof. by intros s. Qed.

Lemma confined_emit (e : event) : P e = true -> confined P (emit e).
Proof.
  intros He s. split; [done|]. apply Forall_cons. split; [by rewrite He|done].
Qed.

Lemma confined_bind {A B} (m : M A) (f : A -> M B) :
  confined P m -> (forall a, confined P (f a)) -> confined P (bind m f).
Proof.
  intros Hm Hf s. destruct (Hm s) as [Hp Ho]. rewrite bind_run.
  destruct (res (m s)) as [a|e]; [|done].
  destruct (Hf a (post (m s))) as [Hp' Ho'].
  rewrite post_prepend, out_prepend. split; [congruence|].
  by apply Forall_app.
Qed.
End Confined.

Ltac confined_step :=
  first
    [ apply confined_ret | apply confined_raise | apply confined_lift
    | apply confined_emit; reflexivity
    | apply confined_bind; [|intros ?]
    | match goal with |- confined _ (match ?x with _ => _ end) => destruct x end ].

(** ** The manifest loader only prints *)

Lemma manifest_loader_confined (w : world) (sp : string) (i : Z) :
  confined is_echo (manifest_loader w sp i).
Proof. unfold manifest_loader, echo, secho_err. repeat confined_step. Qed.

(** ** [resize_image] only works on the picture *)

Lemma resize_image_confined (w : world) (p : string) (W : Z) :
  confined is_image_op (resize_image w p W).
Proof.
  unfold resize_image, pil_resize, pil_convert, pil_save_jpeg.
  repeat confined_step.
Qed.

(** ** [resize_image], step by step *)

Lemma resize_image_run (w : world) (p : string) (W : Z) (s : s3_state) :
  resize_image w p W s =
  prepend [ImageOpen p]
    match image_file w p with
    | Raise e => mk_outcome (Raise e) [] s
    | Ok img =>
        match target_height img W with
        | Raise e => mk_outcome (Raise e) [] s
        | Ok h =>
            prepend [ImageResize W h]
              match image_load w p with
              | Some e => mk_outcome (Raise e) [] s
              | None =>
                  if ((W <? 1) || (h <? 1))%Z then
                    mk_outcome
                      (Raise (PyException "ValueError"
                                "height and width must be > 0")) [] s
                  else
                    prepend (conversion (mode img))
                      (bind (pil_save_jpeg
                               (mk_image W h (encoded_mode (mode img)))
                               85 true) ret s)
              end
        end
    end.
Proof.
  unfold resize_image, target_height. run_M.
  destruct (image_file w p) as [img|e]; [|done]. run_M.
  destruct (py_truediv _ _) as [ar|e]; [|done]. run_M.
  destruct (py_mul_int_float _ _) as [x|e]; [|done]. run_M.
  destruct (py_int x) as [h|e]; [|done].
  unfold pil_resize. run_M.
  destruct (image_load w p) as [e|]; run_M; [done|].
  destruct (_ || _)%bool; run_M; [done|].
  unfold conversion, encoded_mode. cbn [mode].
  destruct (decide _); [|by rewrite prepend_nil].
  unfold pil_convert. by run_M.
Qed.

Lemma pil_save_jpeg_run (img : image) (q : Z) (o : bool) (s : s3_state) :
  let j := mk_jpeg (width img) (height img) (mode img) q o in
  bind (pil_save_jpeg img q o) ret s = mk_outcome (Ok j) [JpegSave j] s
  \/ exists e, bind (pil_save_jpeg img q o) ret s = mk_outcome (Raise e) [] s.
Proof.
  unfold pil_save_jpeg.
  destruct (_ || _)%bool; [right; by eexists|].
  destruct (negb _); [right; by eexists|].
  destruct (_ || _)%bool; [right; by eexists|].
  by left.
Qed.

(** What a run of [resize_image] shows of the workflow: its buffer when it
    returns one, nothing when it raises. *)
Lemma resize_image_steps (w : world) (p : string) (W : Z) (s : s3_state) :
  match res (resize_image w p W s) with
  | Ok j => jpeg_width j = W /\ steps (out (resize_image w p W s)) = [JpegSave j]
  | Raise _ => steps (out (resize_image w p W s)) = []
  end.
Proof.
  rewrite resize_image_run.
  destruct (image_file w p) as [img|e]; [|done].
  destruct (target_height img W) as [h|e]; [|done].
  destruct (image_load w p) as [e|]; [done|].
  destruct (_ || _)%bool; [done|].
  destruct (pil_save_jpeg_run (mk_image W h (encoded_mode (mode img))) 85 true s)
    as [-> | [e ->]]; cbn -[steps]; unfold conversion;
    by destruct (decide _).
Qed.

(** ** [upload_to_s3], case by case *)

Lemma upload_to_s3_run (w : world) (j : jpeg) (key : pyval) (b : string)
    (s : s3_state) :
  upload_case w j key b s (upload_to_s3 w j key b s).
Proof.
  unfold upload_to_s3. fold (credentials_missing w).
  destruct (credentials_missing w) eqn:Hc; [by constructor|].
  unfold boto3_client, echo. run_M. fold (the_client w). fold JPEG_ARGS.
  unfold upload_fileobj.
  destruct key as [| | |k| |]; try (by constructor).
  run_M. rewrite bind_run.
  destruct (s3_response w (requests s)) as [e|] eqn:Hr; simpl.
  - by eapply upload_refused.
  - by eapply upload_stored.
Qed.

(** ** The command, case by case: the six cases of [run_case] are all the
    runs there are *)

Lemma try_except_bind {A B} (m : M A) (f : A -> M B) (h : exn -> M B)
    (s : s3_state) :
  try_except (bind m f) h s =
  match res (m s) with
  | Ok a => prepend (out (m s)) (try_except (f a) h (post (m s)))
  | Raise e => prepend (out (m s)) (h e (post (m s)))
  end.
Proof.
  unfold try_except, bind. destruct (m s) as [[a|e] t s']; simpl; [|done].
  destruct (f a s') as [[b|e] t' s'']; simpl; [done|].
  destruct (h e s'') as [r t'' s3]; simpl. by rewrite app_assoc.
Qed.

Lemma try_except_emit {B} (e : event) (f : unit -> M B) (h : exn -> M B)
    (s : s3_state) :
  try_except (bind (emit e) f) h s = prepend [e] (try_except (f tt) h s).
Proof. by rewrite try_except_bind. Qed.

Lemma upload_run (w : world) (image_path summit_path : string) (index : Z)
    (bucket : string) (s : s3_state) :
  run_case w image_path summit_path index bucket s
           (upload w image_path summit_path index bucket s).
Proof.
  unfold upload, command_body. rewrite try_except_bind.
  destruct (manifest_loader_confined w summit_path index s) as [Hp _].
  destruct (manifest_loader w summit_path index s)
    as [[[url pre]|e] t1 s1] eqn:H1; simpl in Hp; subst s1; simpl res; cbv iota.
  2:{ rewrite handler_spec. by apply run_manifest_failed. }
  unfold resize_and_upload, echo; simpl fst; simpl snd; simpl out; simpl post.
  rewrite !try_except_emit, try_except_bind.
  destruct (resize_image_confined w image_path 1600 s) as [Hp2 _].
  destruct (resize_image w image_path 1600 s) as [[jm|e] t2 s2] eqn:H2;
    simpl in Hp2; subst s2; simpl res; simpl out; simpl post; cbv iota.
  2:{ rewrite handler_spec. by eapply run_main_resize_failed. }
  rewrite try_except_emit, try_except_bind.
  destruct (resize_image_confined w image_path 75 s) as [Hp3 _].
  destruct (resize_image w image_path 75 s) as [[jp|e] t3 s3] eqn:H3;
    simpl in Hp3; subst s3; simpl res; simpl out; simpl post; cbv iota.
  2:{ rewrite handler_spec. by eapply run_preview_resize_failed. }
  rewrite try_except_emit, try_except_bind.
  destruct (upload_to_s3 w jm url bucket s) as [[[]|e] t4 s4] eqn:H4;
    simpl res; simpl out; simpl post; cbv iota.
  2:{ rewrite handler_spec. by eapply run_main_upload_failed. }
  rewrite try_except_bind.
  destruct (upload_to_s3 w jp pre bucket s4) as [[[]|e] t5 s5] eqn:H5;
    simpl res; simpl out; simpl post; cbv iota.
  2:{ rewrite handler_spec. by eapply run_preview_upload_failed. }
  by eapply run_succeeded.
Qed.

(** ** What the parts of a run emit *)

Lemma manifest_loader_trace (w : world) (sp : string) (i : Z) (s s' : s3_state)
    (r : result (pyval * pyval)) (t : list event) :
  manifest_loader w sp i s = mk_outcome r t s' -> Forall is_echo t.
Proof.
  intros H. destruct (manifest_loader_confined w sp i s) as [_ Ho].
  by rewrite H in Ho.
Qed.

Lemma resize_image_trace (w : world) (p : string) (W : Z) (s s' : s3_state)
    (r : result jpeg) (t : list event) :
  resize_image w p W s = mk_outcome r t s' -> Forall is_image_op t.
Proof.
  intros H. destruct (resize_image_confined w p W s) as [_ Ho].
  by rewrite H in Ho.
Qed.

Lemma silent_app (t1 t2 : list event) : silent t1 -> silent t2 -> silent (t1 ++ t2).
Proof. intros. by apply Forall_app. Qed.

Lemma silent_cons (e : event) (t : list event) :
  is_network e = false -> silent t -> silent (e :: t).
Proof. intros. by apply Forall_cons. Qed.

Lemma silent_nil : silent [].
Proof. constructor. Qed.

Lemma silent_manifest_loader (w : world) (sp : string) (i : Z) (s s' : s3_state)
    (r : result (pyval * pyval)) (t : list event) :
  manifest_loader w sp i s = mk_outcome r t s' -> silent t.
Proof. intros H. eapply echo_not_network, manifest_loader_trace, H. Qed.

Lemma silent_resize_image (w : world) (p : string) (W : Z) (s s' : s3_state)
    (r : result jpeg) (t : list event) :
  resize_image w p W s = mk_outcome r t s' -> silent t.
Proof. intros H. eapply image_op_not_network, resize_image_trace, H. Qed.

Create HintDb silent.
#[local] Hint Resolve silent_app silent_cons silent_nil silent_manifest_loader
  silent_resize_image : silent.
#[local] Hint Extern 1 (is_network _ = false) => reflexivity : silent.

(** ** Runs without credentials *)

Lemma upload_to_s3_no_credentials (w : world) (j : jpeg) (key : pyval)
    (b : string) (s : s3_state) :
  credentials_missing w = true ->
  upload_to_s3 w j key b s =
  mk_outcome (Raise (Exit 1)) [Echo true CREDENTIALS_MESSAGE] s.
Proof.
  intros Hc. destruct (upload_to_s3_run w j key b s); congruence.
Qed.

Lemma upload_no_credentials_run (w : world) (ip sp : string) (i : Z)
    (b : string) (s : s3_state) :
  credentials_missing w = true ->
  let o := upload w ip sp i b s in
  silent (out o) /\ post o = s /\ res o = Raise (Exit 1).
Proof.
  intros Hc o. subst o.
  destruct (upload_run w ip sp i b s) as
    [ e t1 H1 | url pre t1 e t2 H1 H2 | url pre t1 jm t2 e t3 H1 H2 H3
    | url pre t1 jm t2 jp t3 e t4 s4 H1 H2 H3 H4
    | url pre t1 jm t2 jp t3 t4 s4 e t5 s5 H1 H2 H3 H4 H5
    | url pre t1 jm t2 jp t3 t4 s4 t5 s5 H1 H2 H3 H4 H5 ];
    try (rewrite upload_to_s3_no_credentials in H4 by done; simplify_eq);
    simpl; (split; [|done]); unfold announce; eauto 20 with silent.
Qed.

Lemma credentials_missing_unset (w : world) :
  environ w "S3_ACCESS_KEY" = None \/ environ w "S3_SECRET_KEY" = None ->
  credentials_missing w = true.
Proof.
  unfold credentials_missing. intros [-> | ->]; simpl; [done|].
  apply orb_true_r.
Qed.

Lemma credentials_missing_empty (w : world) :
  environ w "S3_ACCESS_KEY" = Some "" \/ environ w "S3_SECRET_KEY" = Some "" ->
  credentials_missing w = true.
Proof.
  unfold credentials_missing. intros [-> | ->]; simpl; [done|].
  apply orb_true_r.
Qed.

(** C3. Whenever S3_ACCESS_KEY or S3_SECRET_KEY is unset, [upload_to_s3]
    raises [Exit 1] before it creates a client, and a run of the command
    makes no call into the storage client at all: no transfer is attempted
    (the service is left as it was, so the run did not stop between the two
    uploads) and the process exits with code 1. *)
Theorem missing_credentials_fail_fast (w : world) :
  environ w "S3_ACCESS_KEY" = None \/ environ w "S3_SECRET_KEY" = None ->
  (forall j key b s,
     upload_to_s3 w j key b s =
     mk_outcome (Raise (Exit 1)) [Echo true CREDENTIALS_MESSAGE] s) /\
  (forall image_path summit_path index bucket s,
     let o := upload w image_path summit_path index bucket s in
     Forall (fun e => is_network e = false) (out o) /\
     post o = s /\
     exit_code o = 1).
Proof.
  intros Hc%credentials_missing_unset. split.
  - intros. by apply upload_to_s3_no_credentials.
  - intros ip sp i b s o. subst o.
    destruct (upload_no_credentials_run w ip sp i b s Hc) as (Hs & Hp & Hr).
    repeat split; [exact Hs|exact Hp|].
    unfold exit_code. by rewrite Hr.
Qed.

Lemma missing_credentials_fail_fast_witness :
  let w := world_of sample_manifest (mk_image 3200 1800 MRGB)
                    no_credentials in
  let o := upload w "photo.png" "summit.yaml" 0 S3_BUCKET s3_empty in
  (environ w "S3_ACCESS_KEY" = None \/ environ w "S3_SECRET_KEY" = None) /\
  Forall (fun e => is_network e = false) (out o) /\
  post o = s3_empty /\
  exit_code o = 1.
Proof.
  intros w o. split; [left; reflexivity|].
  apply (missing_credentials_fail_fast w); left; reflexivity.
Defined.

(** ** An empty credential *)

Lemma bind_ext {A B} (m : M A) (f g : A -> M B) (s : s3_state) :
  (forall a s', f a s' = g a s') -> bind m f s = bind m g s.
Proof. intros H. unfold bind. destruct (m s) as [[a|e] t s']; by rewrite ?H. Qed.

Lemma try_except_ext {A} (m m' : M A) (h : exn -> M A) (s : s3_state) :
  m s = m' s -> try_except m h s = try_except m' h s.
Proof. intros H. unfold try_except. by rewrite H. Qed.

(** Two worlds that differ in their environment only, and both lack a
    credential, see the same runs. *)
Lemma upload_same_run (w : world) (name : string) (ip sp : string) (i : Z)
    (b : string) (s : s3_state) :
  credentials_missing w = true ->
  credentials_missing (unset name w) = true ->
  upload w ip sp i b s = upload (unset name w) ip sp i b s.
Proof.
  intros Hw Hw'. unfold upload, command_body. apply try_except_ext.
  apply bind_ext. intros [url pre] s1. unfold resize_and_upload.
  do 5 (apply bind_ext; intros ? ?).
  apply bind_ext; intros jm ?.
  apply bind_ext; intros ? ?.
  apply bind_ext; intros jp ?.
  apply bind_ext; intros ? s2.
  rewrite !bind_run. by rewrite !upload_to_s3_no_credentials.
Qed.

(** C10. A credential variable that is set to the empty string counts as
    unset: [upload_to_s3] prints the credentials error and raises [Exit 1]
    before it creates a client; every run of the command is, event for event,
    the run of the same world with the variable removed; it makes no call
    into the storage client and the process exits with code 1. *)
Theorem empty_credential_as_unset (w : world) (name : string) :
  name = "S3_ACCESS_KEY" \/ name = "S3_SECRET_KEY" ->
  environ w name = Some "" ->
  (forall j key b s,
     upload_to_s3 w j key b s =
     mk_outcome (Raise (Exit 1)) [Echo true CREDENTIALS_MESSAGE] s) /\
  (forall image_path summit_path index bucket s,
     let o := upload w image_path summit_path index bucket s in
     o = upload (unset name w) image_path summit_path index bucket s /\
     Forall (fun e => is_network e = false) (out o) /\
     post o = s /\
     exit_code o = 1).
Proof.
  intros Hname Hempty.
  assert (credentials_missing w = true) as Hc.
  { apply credentials_missing_empty. destruct Hname; subst; eauto. }
  assert (credentials_missing (unset name w) = true) as Hc'.
  { apply credentials_missing_unset. destruct Hname; subst; eauto. }
  split.
  - intros. by apply upload_to_s3_no_credentials.
  - intros ip sp i b s o. subst o.
    destruct (upload_no_credentials_run w ip sp i b s Hc) as (Hs & Hp & Hr).
    repeat split; [by apply upload_same_run|exact Hs|exact Hp|].
    unfold exit_code. by rewrite Hr.
Qed.

Lemma empty_credential_as_unset_witness :
  let w := world_of sample_manifest (mk_image 3200 1800 MRGB)
                    empty_access_key in
  let o := upload w "photo.png" "summit.yaml" 0 S3_BUCKET s3_empty in
  environ w "S3_ACCESS_KEY" = Some "" /\
  o = upload (unset "S3_ACCESS_KEY" w) "photo.png" "summit.yaml" 0 S3_BUCKET
             s3_empty /\
  Forall (fun e => is_network e = false) (out o) /\
  post o = s3_empty /\
  exit_code o = 1.
Proof.
  intros w o. split; [reflexivity|].
  apply (empty_credential_as_unset w "S3_ACCESS_KEY");
    [left; reflexivity|reflexivity].
Defined.

(** ** The manifest loader on the three kinds of manifest *)

Lemma manifest_loader_no_images (w : world) (sp : string) (i : Z)
    (s : s3_state) (d : list (string * pyval)) :
  yaml_file w sp = Ok (PDict d) ->
  dict_get d "images" = None \/ dict_get d "images" = Some (PList []) ->
  manifest_loader w sp i s =
  mk_outcome (Raise (Exit 1)) [reading sp; Echo true NO_IMAGES] s.
Proof.
  intros Hy Hi. unfold manifest_loader, echo, secho_err. run_M.
  rewrite Hy. cbn [py_get]. run_M.
  by destruct Hi as [-> | ->].
Qed.

Lemma manifest_loader_out_of_range (w : world) (sp : string) (i : Z)
    (s : s3_state) (d : list (string * pyval)) (l : list pyval) :
  yaml_file w sp = Ok (PDict d) ->
  dict_get d "images" = Some (PList l) ->
  l <> [] ->
  i < 0 \/ i >= Z.of_nat (length l) ->
  manifest_loader w sp i s =
  mk_outcome (Raise (Exit 1))
    [reading sp; Echo true (out_of_range_message i (Z.of_nat (length l)))] s.
Proof.
  intros Hy Hi Hl Hr. unfold manifest_loader, echo, secho_err. run_M.
  rewrite Hy. cbn [py_get]. run_M. rewrite Hi. cbn [truthy].
  destruct l as [|x l]; [done|]. cbn [negb].
  destruct (i <? 0)%Z eqn:Hneg; run_M.
  - done.
  - cbn [py_len]. run_M.
    destruct (i >=? Z.of_nat (length (x :: l)))%Z eqn:Hge; [done|].
    apply Z.ltb_ge in Hneg. rewrite Z.geb_leb in Hge. apply Z.leb_gt in Hge.
    lia.
Qed.

Lemma manifest_loader_entry (w : world) (sp : string) (i : Z) (s : s3_state)
    (d e : list (string * pyval)) (l : list pyval) (u p : string) :
  yaml_file w sp = Ok (PDict d) ->
  dict_get d "images" = Some (PList l) ->
  0 <= i < Z.of_nat (length l) ->
  l !! Z.to_nat i = Some (PDict e) ->
  dict_get e "url" = Some (PStr u) ->
  dict_get e "preview_url" = Some (PStr p) ->
  u <> "" -> p <> "" ->
  manifest_loader w sp i s = mk_outcome (Ok (PStr u, PStr p)) [reading sp] s.
Proof.
  intros Hy Hi Hr Hl Hu Hp Hu' Hp'. unfold manifest_loader, echo, secho_err.
  run_M. rewrite Hy. cbn [py_get]. run_M. rewrite Hi. cbn [truthy].
  destruct l as [|x l]; [simpl in Hr; lia|]. cbn [negb].
  replace (i <? 0)%Z with false by (symmetry; apply Z.ltb_ge; lia).
  run_M. cbn [py_len]. run_M.
  replace (i >=? Z.of_nat (length (x :: l)))%Z with false
    by (symmetry; rewrite Z.geb_leb; apply Z.leb_gt; lia).
  cbn [py_getitem]. rewrite Hl. run_M. cbn [py_get]. run_M.
  rewrite Hu, Hp. cbn [truthy].
  apply String.eqb_neq in Hu', Hp'. by rewrite Hu', Hp'.
Qed.

(** ** How far a run gets *)

Lemma steps_manifest_loader (w : world) (sp : string) (i : Z) (s s' : s3_state)
    (r : result (pyval * pyval)) (t : list event) :
  manifest_loader w sp i s = mk_outcome r t s' -> steps t = [].
Proof. intros H. eapply steps_echo, manifest_loader_trace, H. Qed.

Lemma steps_resize_image_ok (w : world) (p : string) (W : Z) (s s' : s3_state)
    (j : jpeg) (t : list event) :
  resize_image w p W s = mk_outcome (Ok j) t s' ->
  steps t = [JpegSave j] /\ jpeg_width j = W.
Proof.
  intros H. pose proof (resize_image_steps w p W s) as Hs.
  rewrite H in Hs. simpl in Hs. tauto.
Qed.

Lemma steps_resize_image_raise (w : world) (p : string) (W : Z)
    (s s' : s3_state) (e : exn) (t : list event) :
  resize_image w p W s = mk_outcome (Raise e) t s' -> steps t = [].
Proof.
  intros H. pose proof (resize_image_steps w p W s) as Hs.
  by rewrite H in Hs.
Qed.

Ltac norm_steps :=
  repeat first
    [ rewrite steps_app
    | progress cbn [steps is_step app announce preview_note uploading
                    failed success the_client] ].

Lemma upload_progress (w : world) (ip sp : string) (i : Z) (b : string)
    (s : s3_state) :
  let o := upload w ip sp i b s in
  progress w b (loaded w sp i s) s (steps (out o)) (res o) (post o).
Proof.
  intros o. subst o. unfold loaded.
  destruct (upload_run w ip sp i b s) as
    [ e t1 H1 | url pre t1 e t2 H1 H2 | url pre t1 jm t2 e t3 H1 H2 H3
    | url pre t1 jm t2 jp t3 e t4 s4 H1 H2 H3 H4
    | url pre t1 jm t2 jp t3 t4 s4 e t5 s5 H1 H2 H3 H4 H5
    | url pre t1 jm t2 jp t3 t4 s4 t5 s5 H1 H2 H3 H4 H5 ];
    rewrite H1; cbn [res out post];
    rewrite steps_app, (steps_manifest_loader _ _ _ _ _ _ _ H1).
  - norm_steps.
    apply (stopped_early _ _ _ _ (blank 1600) (blank 75) "" "" 0); (lia || done).
  - norm_steps. rewrite (steps_resize_image_raise _ _ _ _ _ _ _ H2).
    apply (stopped_early _ _ _ _ (blank 1600) (blank 75) "" "" 0); (lia || done).
  - norm_steps.
    destruct (steps_resize_image_ok _ _ _ _ _ _ _ H2) as [-> Hm].
    rewrite (steps_resize_image_raise _ _ _ _ _ _ _ H3).
    apply (stopped_early _ _ _ _ jm (blank 75) "" "" 1); (lia || done).
  - pose proof (upload_to_s3_run w jm url b s) as Hc. rewrite H4 in Hc.
    destruct (steps_resize_image_ok _ _ _ _ _ _ _ H2) as [Hs2 Hm].
    destruct (steps_resize_image_ok _ _ _ _ _ _ _ H3) as [Hs3 Hp].
    inversion Hc; subst; norm_steps; rewrite Hs2, Hs3; cbn [app].
    + apply (stopped_early _ _ _ _ jm jp "" "" 2); (lia || done).
    + apply (stopped_early _ _ _ _ jm jp "" "" 3); (lia || done).
    + by eapply main_refused.
  - pose proof (upload_to_s3_run w jm url b s) as Hc. rewrite H4 in Hc.
    destruct (steps_resize_image_ok _ _ _ _ _ _ _ H2) as [Hs2 Hm].
    destruct (steps_resize_image_ok _ _ _ _ _ _ _ H3) as [Hs3 Hp].
    inversion Hc; subst.
    pose proof (upload_to_s3_run w jp pre b (stored s jm b k)) as Hc'.
    rewrite H5 in Hc'.
    inversion Hc'; subst; try congruence; norm_steps; rewrite Hs2, Hs3;
      cbn [app].
    + by eapply preview_not_sent.
    + by eapply preview_refused.
  - pose proof (upload_to_s3_run w jm url b s) as Hc. rewrite H4 in Hc.
    destruct (steps_resize_image_ok _ _ _ _ _ _ _ H2) as [Hs2 Hm].
    destruct (steps_resize_image_ok _ _ _ _ _ _ _ H3) as [Hs3 Hp].
    inversion Hc; subst.
    pose proof (upload_to_s3_run w jp pre b (stored s jm b k)) as Hc'.
    rewrite H5 in Hc'.
    inversion Hc'; subst; norm_steps; rewrite Hs2, Hs3; cbn [app].
    by eapply both_stored.
Qed.

(** ** Failures of the loader end the run *)

Lemma upload_manifest_failure (w : world) (ip sp : string) (i : Z)
    (b : string) (s : s3_state) (e : exn) (t : list event) :
  manifest_loader w sp i s = mk_outcome (Raise e) t s ->
  upload w ip sp i b s = mk_outcome (Raise (Exit 1)) (t ++ [failed e]) s.
Proof.
  intros H. unfold upload, command_body. rewrite try_except_bind, H.
  cbn [res out post].
  by rewrite handler_spec.
Qed.

Lemma has_substring_here (n r : string) : has_substring n (n +:+ r) = true.
Proof.
  assert (String.prefix n (n +:+ r) = true) as H.
  { induction n as [|c n IH]; simpl; [by destruct r|].
    destruct (ascii_dec c c); [exact IH|done]. }
  destruct n; simpl in *; [by destruct r|]. by rewrite H.
Qed.

Lemma has_substring_skip (n pre h : string) :
  has_substring n h = true -> has_substring n (pre +:+ h) = true.
Proof.
  intros H. induction pre as [|c pre IH]; [done|].
  simpl. rewrite IH. apply orb_true_r.
Qed.

Lemma out_of_range_message_index (i n : Z) :
  has_substring (pretty i) (out_of_range_message i n) = true.
Proof. unfold out_of_range_message. apply has_substring_skip, has_substring_here. Qed.

Lemma out_of_range_message_length (i n : Z) :
  has_substring (pretty n) (out_of_range_message i n) = true.
Proof.
  unfold out_of_range_message.
  do 3 apply has_substring_skip. apply has_substring_here.
Qed.

Lemma manifest_loader_no_get (w : world) (sp : string) (i : Z)
    (s : s3_state) (v : pyval) :
  yaml_file w sp = Ok v -> is_mapping v = false ->
  manifest_loader w sp i s =
  mk_outcome
    (Raise (PyException "AttributeError"
              ("'" +:+ type_name v +:+ "' object has no attribute 'get'")))
    [reading sp] s.
Proof.
  intros Hy Hv. unfold manifest_loader, echo. run_M. rewrite Hy.
  by destruct v.
Qed.

(** C5, as the code has it.  When the document has no top-level key
    [images], or an empty sequence under it, the run ends with exit code 1
    having printed only: the picture is never opened, nothing is resized and
    nothing is uploaded.  The error it prints is the missing-images error
    when the document is a mapping; a document that is not a mapping (an
    empty file, a sequence, a scalar) is reported with the line of the
    AttributeError that [summit_data.get] raises. *)
Theorem missing_images_before_image (w : world) (image_path summit_path : string)
    (index : Z) (bucket : string) (s : s3_state) (v : pyval) :
  yaml_file w summit_path = Ok v ->
  images_missing v ->
  let o := upload w image_path summit_path index bucket s in
  out o = reading summit_path :: missing_images_lines v /\
  Forall (fun e => is_image_op e = false /\ is_network e = false) (out o) /\
  post o = s /\
  exit_code o = 1.
Proof.
  intros Hy Hi o. subst o. unfold missing_images_lines.
  destruct (is_mapping v) eqn:Hv.
  - destruct v as [| | | | |d]; try done. cbn [images_missing] in Hi.
    rewrite (upload_manifest_failure _ _ _ _ _ _ _ _
               (manifest_loader_no_images w summit_path index s d Hy Hi)).
    repeat split. repeat constructor.
  - rewrite (upload_manifest_failure _ _ _ _ _ _ _ _
               (manifest_loader_no_get w summit_path index s v Hy Hv)).
    repeat split. repeat constructor.
Qed.

Lemma missing_images_before_image_witness :
  let w := world_of (PDict [("title", PStr "Peak")]) (mk_image 3200 1800 MRGB)
                    no_credentials in
  let o := upload w "photo.png" "summit.yaml" 0 S3_BUCKET s3_empty in
  yaml_file w "summit.yaml" = Ok (PDict [("title", PStr "Peak")]) /\
  images_missing (PDict [("title", PStr "Peak")]) /\
  out o = [reading "summit.yaml"; Echo true NO_IMAGES; Echo true "✗ Error: "] /\
  Forall (fun e => is_image_op e = false /\ is_network e = false) (out o) /\
  post o = s3_empty /\
  exit_code o = 1.
Proof.
  intros w o. split; [reflexivity|]. split; [left; reflexivity|].
  apply (missing_images_before_image w "photo.png" "summit.yaml" 0 S3_BUCKET
           s3_empty (PDict [("title", PStr "Peak")]));
    [reflexivity|left; reflexivity].
Defined.

(** C5 as stated fails on a document that is not a mapping.  A manifest that
    is the sequence of the entries itself has no key [images]; the run
    fails, but no missing-images error is printed: the error line is that of
    the AttributeError. *)
Lemma missing_images_not_a_mapping :
  let w := world_of (PList two_entries) (mk_image 3200 1800 MRGB)
                    no_credentials in
  let o := upload w "photo.png" "summit.yaml" 0 S3_BUCKET s3_empty in
  yaml_file w "summit.yaml" = Ok (PList two_entries) /\
  images_missing (PList two_entries) /\
  out o = [reading "summit.yaml";
           Echo true "✗ Error: 'list' object has no attribute 'get'"] /\
  ~ (Echo true NO_IMAGES ∈ out o).
Proof.
  intros w o. split; [reflexivity|]. split; [exact I|]. split; [reflexivity|].
  intros Hin. vm_compute in Hin.
  repeat (apply elem_of_cons in Hin as [Hin|Hin]; [discriminate Hin|]).
  by apply elem_of_nil in Hin.
Qed.

(** C4, as the code has it.  When the [images] sequence has n >= 1 entries
    and the index is negative or at least n, the run prints an out-of-range
    error that shows both the index and n, and ends with exit code 1 having
    printed only: nothing is resized and nothing is uploaded. *)
Theorem index_out_of_range_reported (w : world) (image_path summit_path : string)
    (index : Z) (bucket : string) (s : s3_state) (d : list (string * pyval))
    (l : list pyval) :
  yaml_file w summit_path = Ok (PDict d) ->
  dict_get d "images" = Some (PList l) ->
  (1 <= length l)%nat ->
  index < 0 \/ index >= Z.of_nat (length l) ->
  let n := Z.of_nat (length l) in
  let o := upload w image_path summit_path index bucket s in
  out o = [reading summit_path; Echo true (out_of_range_message index n);
           Echo true "✗ Error: "] /\
  has_substring (pretty index) (out_of_range_message index n) = true /\
  has_substring (pretty n) (out_of_range_message index n) = true /\
  Forall (fun e => is_image_op e = false /\ is_network e = false) (out o) /\
  post o = s /\
  exit_code o = 1.
Proof.
  intros Hy Hi Hn Hr n o. subst n o.
  assert (l <> []) as Hl by (intros ->; simpl in Hn; lia).
  rewrite (upload_manifest_failure _ _ _ _ _ _ _ _
             (manifest_loader_out_of_range w summit_path index s d l
                Hy Hi Hl Hr)).
  split; [done|].
  split; [apply out_of_range_message_index|].
  split; [apply out_of_range_message_length|].
  repeat split. repeat constructor.
Qed.

Lemma index_out_of_range_reported_witness :
  let w := world_of (PDict [("images", PList two_entries)])
                    (mk_image 3200 1800 MRGB) no_credentials in
  let o := upload w "photo.png" "summit.yaml" 5 S3_BUCKET s3_empty in
  (1 <= length two_entries)%nat /\
  (5 < 0 \/ 5 >= Z.of_nat (length two_entries)) /\
  out o = [reading "summit.yaml"; Echo true (out_of_range_message 5 2);
           Echo true "✗ Error: "] /\
  has_substring (pretty 5) (out_of_range_message 5 2) = true /\
  has_substring (pretty 2) (out_of_range_message 5 2) = true /\
  Forall (fun e => is_image_op e = false /\ is_network e = false) (out o) /\
  post o = s3_empty /\
  exit_code o = 1.
Proof.
  intros w o. split; [simpl; lia|]. split; [right; simpl; lia|].
  apply (index_out_of_range_reported w "photo.png" "summit.yaml" 5 S3_BUCKET
           s3_empty [("images", PList two_entries)] two_entries);
    [reflexivity|reflexivity|simpl; lia|right; simpl; lia].
Defined.

(** C4 as stated fails on an empty sequence (n = 0, any index): the run
    reports the missing images instead, and neither line on the error stream
    shows the index. *)
Lemma index_out_of_range_empty_sequence :
  let w := world_of (PDict [("images", PList [])]) (mk_image 3200 1800 MRGB)
                    no_credentials in
  let o := upload w "photo.png" "summit.yaml" 0 S3_BUCKET s3_empty in
  yaml_file w "summit.yaml" = Ok (PDict [("images", PList [])]) /\
  0 >= Z.of_nat (length (@nil pyval)) /\
  out o = [reading "summit.yaml"; Echo true NO_IMAGES; Echo true "✗ Error: "] /\
  has_substring (pretty 0) NO_IMAGES = false /\
  has_substring (pretty 0) "✗ Error: " = false.
Proof. repeat split; try reflexivity. simpl. lia. Qed.

(** ** The keys of the entry *)

Lemma progress_transfers (w : world) (b : string) (u p : string)
    (s s' : s3_state) (t : list event) (r : result unit) :
  progress w b (Some (PStr u, PStr p)) s t r s' ->
  forall j b' k x, UploadFileobj j b' k x ∈ t -> k = u \/ k = p.
Proof.
  intros H j b' k x Hin.
  inversion H as
    [ jm jp u' p' n Hn _ _ _ Ht | jm jp u' pre e Hk _ _ _ Ht
    | jm jp u' pre Hk Hbad _ _ _ Ht | jm jp u' p' e Hk _ _ _ _ Ht
    | jm jp u' p' Hk _ _ _ _ Ht ]; subst; simplify_eq.
  - destruct n as [|[|[|[|n]]]]; try lia;
      repeat (apply elem_of_cons in Hin as [Hin|Hin]; try done);
      by apply elem_of_nil in Hin.
  - repeat (apply elem_of_cons in Hin as [Hin|Hin]; simplify_eq; eauto).
    by apply elem_of_nil in Hin.
  - by destruct (Hbad p).
  - repeat (apply elem_of_cons in Hin as [Hin|Hin]; simplify_eq; eauto).
    by apply elem_of_nil in Hin.
  - repeat (apply elem_of_cons in Hin as [Hin|Hin]; simplify_eq; eauto).
    by apply elem_of_nil in Hin.
Qed.

Lemma elem_of_steps (e : event) (t : list event) :
  e ∈ t -> is_step e = true -> e ∈ steps t.
Proof.
  induction t as [|e' t IH]; intros Hin He; [by apply elem_of_nil in Hin|].
  apply elem_of_cons in Hin as [<-|Hin]; simpl.
  - rewrite He. by left.
  - destruct (is_step e'); [right|]; by apply IH.
Qed.

(** C6. For a manifest whose entry at the index (within the sequence) holds
    two non-empty strings under [url] and [preview_url], the loader returns
    exactly these two strings, and every transfer of the run goes to one of
    them, unchanged. *)
Theorem loader_returns_stored_keys (w : world) (image_path summit_path : string)
    (index : Z) (bucket : string) (s : s3_state)
    (d e : list (string * pyval)) (l : list pyval) (u p : string) :
  yaml_file w summit_path = Ok (PDict d) ->
  dict_get d "images" = Some (PList l) ->
  0 <= index < Z.of_nat (length l) ->
  l !! Z.to_nat index = Some (PDict e) ->
  dict_get e "url" = Some (PStr u) ->
  dict_get e "preview_url" = Some (PStr p) ->
  u <> "" -> p <> "" ->
  manifest_loader w summit_path index s =
    mk_outcome (Ok (PStr u, PStr p)) [reading summit_path] s /\
  (forall j b k x,
     UploadFileobj j b k x ∈ out (upload w image_path summit_path index bucket s) ->
     k = u \/ k = p).
Proof.
  intros Hy Hi Hr Hl Hu Hp Hu' Hp'.
  pose proof (manifest_loader_entry w summit_path index s d e l u p
                Hy Hi Hr Hl Hu Hp Hu' Hp') as Hm.
  split; [exact Hm|]. intros j b k x Hin.
  pose proof (upload_progress w image_path summit_path index bucket s) as Hg.
  unfold loaded in Hg. rewrite Hm in Hg. cbn [res] in Hg.
  eapply progress_transfers; [exact Hg|].
  by apply elem_of_steps.
Qed.

Lemma loader_returns_stored_keys_witness :
  let w := world_of sample_manifest (mk_image 3200 1800 MRGB)
                    (fun _ => Some "k") in
  0 <= 0 < Z.of_nat 1 /\
  manifest_loader w "summit.yaml" 0 s3_empty =
    mk_outcome (Ok (PStr "a/main.jpg", PStr "a/prev.jpg"))
               [reading "summit.yaml"] s3_empty /\
  (forall j b k x,
     UploadFileobj j b k x
       ∈ out (upload w "photo.png" "summit.yaml" 0 S3_BUCKET s3_empty) ->
     k = "a/main.jpg" \/ k = "a/prev.jpg").
Proof.
  intros w. split; [lia|].
  apply (loader_returns_stored_keys w "photo.png" "summit.yaml" 0 S3_BUCKET
           s3_empty
           [("images",
             PList [PDict [("url", PStr "a/main.jpg");
                           ("preview_url", PStr "a/prev.jpg")]])]
           [("url", PStr "a/main.jpg"); ("preview_url", PStr "a/prev.jpg")]
           [PDict [("url", PStr "a/main.jpg");
                   ("preview_url", PStr "a/prev.jpg")]]
           "a/main.jpg" "a/prev.jpg");
    try reflexivity; try discriminate. simpl; lia.
Defined.

(** ** The order of the steps *)

Lemma insert_keeps (m : gmap (string * string) s3_object)
    (k key : string * string) (v : s3_object) :
  is_Some (m !! key) -> is_Some (<[k := v]> m !! key).
Proof.
  intros H. destruct (decide (k = key)) as [->|Hne].
  - rewrite lookup_insert_eq. eauto.
  - by rewrite lookup_insert_ne.
Qed.

(** C7. In every run the steps come in one fixed order: the trace shows a
    prefix of "main buffer encoded (width 1600), preview buffer encoded
    (width 75), client, transfer of the main buffer to [url], client,
    transfer of the preview buffer to [preview_url]".  So both resizes are
    complete before any transfer and the main transfer precedes the preview
    one.  Any step after the first transfer requires that the service
    accepted it (a failed first upload is never followed by a second one).
    When the first transfer was accepted and the run fails later, the
    service holds the main object all the same, and no run ever removes an
    object. *)
Theorem workflow_order (w : world) (image_path summit_path : string)
    (index : Z) (bucket : string) (s : s3_state) :
  let o := upload w image_path summit_path index bucket s in
  exists jm jp u p,
    jpeg_width jm = 1600 /\ jpeg_width jp = 75 /\
    steps (out o) `prefix_of` plan w bucket jm jp u p /\
    ((4 <= length (steps (out o)))%nat ->
       exists pre, loaded w summit_path index s = Some (PStr u, pre)) /\
    ((6 <= length (steps (out o)))%nat ->
       loaded w summit_path index s = Some (PStr u, PStr p)) /\
    ((5 <= length (steps (out o)))%nat -> s3_response w (requests s) = None) /\
    ((4 <= length (steps (out o)))%nat ->
       s3_response w (requests s) = None ->
       res o <> Ok tt ->
       objects (post o) = <[(bucket, u) := mk_object jm JPEG_ARGS]> (objects s)) /\
    (forall key, is_Some (objects s !! key) -> is_Some (objects (post o) !! key)).
Proof.
  intros o. subst o.
  destruct (upload_progress w image_path summit_path index bucket s)
    as [ jm jp u p k Hk _ Hm Hp | jm jp u pre e Hl Hm Hp He
       | jm jp u pre Hl Hbad Hm Hp Hr | jm jp u p e Hl Hm Hp Hr He
       | jm jp u p Hl Hm Hp Hr Hr' ].
  - exists jm, jp, u, p. split_and!; try done.
    + apply prefix_take.
    + rewrite length_take. simpl. lia.
    + rewrite length_take. simpl. lia.
    + rewrite length_take. simpl. lia.
    + rewrite length_take. simpl. lia.
  - exists jm, jp, u, "". split_and!; try done.
    + apply (prefix_take _ 4).
    + eauto.
    + simpl. lia.
    + simpl. lia.
    + congruence.
  - exists jm, jp, u, "". split_and!; try done.
    + apply (prefix_take _ 5).
    + eauto.
    + simpl. lia.
    + intros key. apply insert_keeps.
  - exists jm, jp, u, p. split_and!; try done.
    + eauto.
    + intros key. apply insert_keeps.
  - exists jm, jp, u, p. split_and!; try done.
    + eauto.
    + intros key Hkey. simpl. by do 2 apply insert_keeps.
Qed.

(** C7's last case on a run: the service stores the main buffer and refuses
    the preview.  The run fails, all six steps show, and the main object is
    there. *)
Example main_upload_kept :
  let o := upload refusing_second "photo.png" "summit.yaml" 0 "bk" s3_empty in
  let jm := mk_jpeg 1600 900 MRGB 85 true in
  let jp := mk_jpeg 75 42 MRGB 85 true in
  exit_code o = 1 /\
  steps (out o) = plan refusing_second "bk" jm jp "a/main.jpg" "a/prev.jpg" /\
  objects (post o) !! ("bk", "a/main.jpg") = Some (mk_object jm JPEG_ARGS) /\
  objects (post o) !! ("bk", "a/prev.jpg") = None.
Proof. by vm_compute. Qed.

Lemma workflow_plan_prefix (w : world) (b : string)
    (keys : option (pyval * pyval)) (s s' : s3_state) (t : list event)
    (r : result unit) :
  progress w b keys s t r s' ->
  exists jm jp u p, t `prefix_of` plan w b jm jp u p.
Proof.
  intros []; do 4 eexists;
    solve [apply prefix_take | apply (prefix_take _ 4)
          | apply (prefix_take _ 5) | reflexivity].
Qed.

(** ** The application *)

(** The three ways a command line is treated: an eager option is served, the
    command line is refused, or the command is called. *)
Lemma app_run (w : world) (c : cli) (s : s3_state) :
  (exists e, opt_eager c = Some e /\ app w c s = serve w e s) \/
  (opt_eager c = None /\ cli_valid w c = false /\
   app w c s = mk_outcome (Raise (Exit USAGE_ERROR)) [] s) \/
  (exists ip sp i,
     opt_eager c = None /\ cli_valid w c = true /\
     opt_image_path c = Some ip /\ opt_summit_path c = Some sp /\
     opt_index c = Some i /\
     app w c s = upload w ip sp i (destination c) s).
Proof.
  unfold app, cli_valid, destination.
  destruct (opt_eager c) as [e|]; [left; by exists e|]. right.
  destruct (opt_image_path c) as [ip|]; [|by left].
  destruct (opt_summit_path c) as [sp|]; [|by left].
  destruct (opt_index c) as [i|]; [|by left].
  destruct (path_ok w ip && path_ok w sp) eqn:Hv; [|by left].
  right. exists ip, sp, i. by destruct (opt_bucket c).
Qed.

(** Serving an eager option runs no part of the command. *)
Lemma serve_run (w : world) (e : eager_option) (s : s3_state) :
  out (serve w e s) = [] /\ post (serve w e s) = s /\
  (e = Help \/ shell_completion w = None -> res (serve w e s) = Ok tt).
Proof.
  unfold serve. destruct e; [done| |];
    (destruct (shell_completion w); split_and!; try done; by intros [|]).
Qed.

Lemma prefix_elem_of (e : event) (t l : list event) :
  t `prefix_of` l -> e ∈ t -> e ∈ l.
Proof. intros [k ->] H. apply elem_of_app. by left. Qed.

Lemma progress_objects (w : world) (b : string) (keys : option (pyval * pyval))
    (s s' : s3_state) (t : list event) (r : result unit) :
  progress w b keys s t r s' ->
  forall key obj, objects s' !! key = Some obj ->
    objects s !! key = Some obj \/ (key.1 = b /\ extra_args obj = JPEG_ARGS).
Proof.
  intros H [b' k] obj. destruct H; simpl; eauto;
    rewrite ?lookup_insert; repeat case_decide; simplify_eq; intros;
    simplify_eq; eauto.
Qed.

(** A run that returns has gone through the whole plan and stored both
    buffers. *)
Lemma progress_complete (w : world) (b : string) (keys : option (pyval * pyval))
    (s s' : s3_state) (t : list event) :
  progress w b keys s t (Ok tt) s' ->
  exists jm jp u p,
    t = plan w b jm jp u p /\ s' = stored (stored s jm b u) jp b p.
Proof.
  intros H. inversion H; subst. by exists jm, jp, u, p.
Qed.

(** C9. Every call of [upload_to_s3] that finds its credentials begins by
    creating the client, for the endpoint [S3_ENDPOINT] with the addressing
    style "path"; for a key that is a string the transfer follows, with the
    content type image/jpeg as its only extra argument, and when the service
    accepts it the object is written with these arguments alone.  A run of
    the command that returns has created the client and made the transfer
    for each of the two buffers, in the bucket given by [--bucket] or, when
    the option is left out, in [S3_BUCKET], and both objects are stored
    there.  Whatever the command line and however the run ends: the steps
    shown are a prefix of these, every client is created for [S3_ENDPOINT]
    with the style "path", every transfer goes to that bucket with that
    content type alone, and so is every object the run has written. *)
Theorem client_and_object_settings (w : world) (c : cli) (s : s3_state) :
  let o := app w c s in
  let client := ClientCreate "https://s3.timeweb.cloud"
                  (default "" (environ w "S3_ACCESS_KEY"))
                  (default "" (environ w "S3_SECRET_KEY")) "path" in
  let bucket := match opt_bucket c with
                | Some b => b
                | None => "302f9aa7-62c4d4d3-ccfd-4077-86c8-cca52e0da376"
                end in
  let args := [("ContentType", "image/jpeg")] in
  (credentials_missing w = false ->
   forall j key b s0,
     let u := upload_to_s3 w j key b s0 in
     head (out u) = Some client /\
     (forall k, key = PStr k ->
        [client; UploadFileobj j b k args] `prefix_of` out u /\
        (s3_response w (requests s0) = None ->
           res u = Ok tt /\
           objects (post u) = <[(b, k) := mk_object j args]> (objects s0)))) /\
  (opt_eager c = None -> res o = Ok tt ->
   exists jm jp u p,
     steps (out o) =
       [ JpegSave jm; JpegSave jp;
         client; UploadFileobj jm bucket u args;
         client; UploadFileobj jp bucket p args ] /\
     objects (post o) =
       <[(bucket, p) := mk_object jp args]>
         (<[(bucket, u) := mk_object jm args]> (objects s))) /\
  (exists jm jp u p,
     steps (out o) `prefix_of`
       [ JpegSave jm; JpegSave jp;
         client; UploadFileobj jm bucket u args;
         client; UploadFileobj jp bucket p args ]) /\
  (forall ep ak sk style,
     ClientCreate ep ak sk style ∈ out o ->
     ep = "https://s3.timeweb.cloud" /\ style = "path") /\
  (forall j b k x,
     UploadFileobj j b k x ∈ out o -> b = bucket /\ x = args) /\
  (forall key obj,
     objects (post o) !! key = Some obj ->
     objects s !! key = Some obj \/ (key.1 = bucket /\ extra_args obj = args)).
Proof.
  intros o client bucket args. subst o. split.
  { intros Hc j key b s0 u. subst u.
    destruct (upload_to_s3_run w j key b s0) as [Hm|Hm Hk|k e Hm Hk He|k Hm Hk He];
      [congruence| | |]; cbn [out res post]; (split; [done|]); intros k' ->.
    - by destruct (Hk k').
    - injection Hk as <-. split; [by exists []|]. congruence.
    - injection Hk as <-. split; [|done].
      by exists [Echo false ("  ✓ Uploaded to s3://" +:+ b +:+ "/" +:+ k')]. }
  destruct (app_run w c s)
    as [(e & He & ->) | [(He & _ & ->) | (ip & sp & i & He & _ & _ & _ & _ & ->)]].
  { destruct (serve_run w e s) as (Ho & Hp & _). rewrite Ho, Hp. split_and!.
    - congruence.
    - exists (blank 1600), (blank 75), "", "". apply prefix_nil.
    - intros ???? H. by apply elem_of_nil in H.
    - intros ???? H. by apply elem_of_nil in H.
    - eauto. }
  { split_and!.
    - done.
    - exists (blank 1600), (blank 75), "", "". apply prefix_nil.
    - intros ???? H. by apply elem_of_nil in H.
    - intros ???? H. by apply elem_of_nil in H.
    - eauto. }
  pose proof (upload_progress w ip sp i (destination c) s) as Hg.
  cbv zeta in Hg.
  destruct (workflow_plan_prefix _ _ _ _ _ _ _ Hg) as (jm & jp & u & p & Hpre).
  unfold plan, the_client in Hpre.
  split_and!.
  - intros _ Hr. rewrite Hr in Hg.
    destruct (progress_complete _ _ _ _ _ _ Hg) as (jm' & jp' & u' & p' & Ht & Hs).
    exists jm', jp', u', p'. by rewrite Ht, Hs.
  - exists jm, jp, u, p. exact Hpre.
  - intros ep ak sk style Hin.
    apply elem_of_steps in Hin; [|done].
    apply (prefix_elem_of _ _ _ Hpre) in Hin.
    repeat (apply elem_of_cons in Hin as [Hin|Hin]; simplify_eq; try done).
    by apply elem_of_nil in Hin.
  - intros j b k x Hin.
    apply elem_of_steps in Hin; [|done].
    apply (prefix_elem_of _ _ _ Hpre) in Hin.
    repeat (apply elem_of_cons in Hin as [Hin|Hin]; simplify_eq; try done).
    by apply elem_of_nil in Hin.
  - apply (progress_objects _ _ _ _ _ _ _ Hg).
Qed.

(** C9 on a run: with both credentials set and no [--bucket], the two
    clients and the two transfers are there and both objects are stored in
    [S3_BUCKET] with the content type image/jpeg. *)
Example default_bucket_run :
  let w := world_of sample_manifest (mk_image 3200 1800 MRGB) with_credentials in
  let c := mk_cli (Some "photo.png") (Some "summit.yaml") (Some 0) None None in
  let o := app w c s3_empty in
  let jm := mk_jpeg 1600 900 MRGB 85 true in
  let jp := mk_jpeg 75 42 MRGB 85 true in
  let client := ClientCreate "https://s3.timeweb.cloud" "AK" "SK" "path" in
  let bucket := "302f9aa7-62c4d4d3-ccfd-4077-86c8-cca52e0da376" in
  let args := [("ContentType", "image/jpeg")] in
  credentials_missing w = false /\
  res o = Ok tt /\
  steps (out o) =
    [ JpegSave jm; JpegSave jp;
      client; UploadFileobj jm bucket "a/main.jpg" args;
      client; UploadFileobj jp bucket "a/prev.jpg" args ] /\
  objects (post o) !! (bucket, "a/main.jpg") = Some (mk_object jm args) /\
  objects (post o) !! (bucket, "a/prev.jpg") = Some (mk_object jp args).
Proof. by vm_compute. Qed.

(** ** Exit codes *)






(** With [--help] the process ends with code 0 although no step has run,
    whatever the other options are: here the picture does not exist. *)
Example help_exit_code :
  let c := mk_cli (Some "photo.png") (Some "summit.yaml") (Some 0) None
                  (Some Help) in
  let o := app no_such_file c s3_empty in
  exit_code o = 0 /\ steps (out o) = [] /\ post o = s3_empty.
Proof. by vm_compute. Qed.

(** ** The size and the mode of the buffer *)

(** When [resize_image] returns a buffer, and which. *)
Lemma resize_image_result (w : world) (path : string) (W : Z) (s : s3_state)
    (j : jpeg) :
  0 < W ->
  res (resize_image w path W s) = Ok j <->
  exists img h,
    image_file w path = Ok img /\
    image_load w path = None /\
    target_height img W = Ok h /\
    1 <= h <= JPEG_MAX_DIMENSION /\
    W <= JPEG_MAX_DIMENSION /\
    jpeg_writable (encoded_mode (mode img)) = true /\
    j = mk_jpeg W h (encoded_mode (mode img)) 85 true.
Proof.
  intros HW. rewrite resize_image_run, res_prepend.
  destruct (image_file w path) as [img|e]; cbn [res].
  2:{ split; [done|]. by intros (? & ? & [=] & _). }
  destruct (target_height img W) as [h|e] eqn:Hth; rewrite ?res_prepend;
    cbn [res].
  2:{ split; [done|]. intros (? & ? & [= <-] & ? & ? & _). congruence. }
  destruct (image_load w path) as [e|] eqn:Hld; cbn [res].
  { split; [done|]. by intros (? & ? & ? & [=] & _). }
  transitivity (1 <= h <= JPEG_MAX_DIMENSION /\ W <= JPEG_MAX_DIMENSION /\
                jpeg_writable (encoded_mode (mode img)) = true /\
                j = mk_jpeg W h (encoded_mode (mode img)) 85 true).
  2:{ split.
      - intros (? & ? & ? & ?). by exists img, h.
      - intros (img' & h' & [= <-] & _ & Hh' & ?). rewrite Hth in Hh'.
        by injection Hh' as <-. }
  replace (W <? 1)%Z with false by (symmetry; apply Z.ltb_ge; lia).
  cbn [orb]. unfold pil_save_jpeg. cbn [width height mode].
  destruct (h <? 1)%Z eqn:Hh1; rewrite ?res_prepend; cbn [res].
  { apply Z.ltb_lt in Hh1. split; [done|lia]. }
  apply Z.ltb_ge in Hh1.
  replace (W =? 0)%Z with false by (symmetry; apply Z.eqb_neq; lia).
  replace (h =? 0)%Z with false by (symmetry; apply Z.eqb_neq; lia).
  cbn [orb].
  destruct (jpeg_writable (encoded_mode (mode img))) eqn:Hm; cbn [negb].
  2:{ rewrite bind_raise. cbn [res]. split; [done|]. by intros (? & ? & ? & ?). }
  destruct (JPEG_MAX_DIMENSION <? W)%Z eqn:HW'; cbn [orb].
  { rewrite bind_raise. cbn [res]. apply Z.ltb_lt in HW'. split; [done|lia]. }
  apply Z.ltb_ge in HW'.
  destruct (JPEG_MAX_DIMENSION <? h)%Z eqn:Hh'.
  { rewrite bind_raise. cbn [res]. apply Z.ltb_lt in Hh'. split; [done|lia]. }
  apply Z.ltb_ge in Hh'. run_M. rewrite res_prepend. cbn [res ret].
  split.
  - by intros [= <-].
  - by intros (? & ? & ? & ->).
Qed.

(** C1, as the code has it.  For a picture of W0 x H0 pixels and a positive
    target width W, let h = int(W * (H0 / W0)), computed in double precision
    and truncated toward zero.  Every buffer [resize_image] returns is W
    pixels wide and h pixels high.  And it does return one when the picture
    decodes, W and h lie between 1 and the limit of the JPEG encoder, and
    the mode of the picture is one the encoder writes or one of the two the
    code converts. *)
Theorem resize_image_dimensions (w : world) (path : string) (W : Z)
    (s : s3_state) (img : image) (h : Z) :
  0 < W ->
  image_file w path = Ok img ->
  target_height img W = Ok h ->
  (forall j, res (resize_image w path W s) = Ok j ->
     jpeg_width j = W /\ jpeg_height j = h) /\
  (image_load w path = None ->
   W <= JPEG_MAX_DIMENSION ->
   1 <= h <= JPEG_MAX_DIMENSION ->
   jpeg_writable (mode img) = true \/ mode img = MRGBA \/ mode img = MP ->
   exists j, res (resize_image w path W s) = Ok j /\
             jpeg_width j = W /\ jpeg_height j = h).
Proof.
  intros HW Hi Hh. split.
  - intros j (img' & h' & Hi' & _ & Hh' & ? & ? & ? & ->)%resize_image_result;
      [|done].
    rewrite Hi in Hi'. injection Hi' as <-.
    rewrite Hh in Hh'. by injection Hh' as <-.
  - intros Hld HW' Hh' Hm.
    exists (mk_jpeg W h (encoded_mode (mode img)) 85 true).
    split; [|done]. apply resize_image_result; [done|].
    exists img, h. split_and!; try done; try lia.
    unfold encoded_mode. destruct (decide _) as [_|Hn]; [done|].
    destruct Hm as [Hm|Hm]; [done|tauto].
Qed.

Lemma resize_image_dimensions_witness :
  let img := mk_image 3200 1800 MRGB in
  let w := world_of sample_manifest img no_credentials in
  0 < 75 /\
  target_height img 75 = Ok 42 /\
  exists j, res (resize_image w "photo.png" 75 s3_empty) = Ok j /\
            jpeg_width j = 75 /\ jpeg_height j = 42.
Proof.
  intros img w. split; [lia|]. split; [reflexivity|].
  apply (resize_image_dimensions w "photo.png" 75 s3_empty img 42);
    unfold JPEG_MAX_DIMENSION;
    [lia|reflexivity|reflexivity|reflexivity|lia|lia|left; reflexivity].
Defined.

(** C1 as stated fails wherever truncation and rounding differ: a picture of
    3 x 2 pixels resized to the width 1600 comes out 1066 pixels high, and
    round(1600 * 2 / 3) is 1067. *)
Lemma truncated_not_rounded :
  let w := world_of sample_manifest (mk_image 3 2 MRGB) no_credentials in
  res (resize_image w "photo.png" 1600 s3_empty)
    = Ok (mk_jpeg 1600 1066 MRGB 85 true) /\
  rounded_height 1600 2 3 = 1067.
Proof. by vm_compute. Qed.

(** The scenario of the specification: 3200 x 1800 gives 1600 x 900 and
    75 x 42. *)
Example resize_3200_1800 :
  let w := world_of sample_manifest (mk_image 3200 1800 MRGB) no_credentials in
  res (resize_image w "photo.png" 1600 s3_empty)
    = Ok (mk_jpeg 1600 900 MRGB 85 true) /\
  res (resize_image w "photo.png" 75 s3_empty)
    = Ok (mk_jpeg 75 42 MRGB 85 true).
Proof. by vm_compute. Qed.

(** The modes with an alpha channel or a palette that reach the encoder in a
    mode it writes are the two the code names. *)
Lemma converted_modes (m : Mode) :
  has_alpha m || palette_based m = true ->
  (jpeg_writable (encoded_mode m) = true <-> m = MRGBA \/ m = MP).
Proof.
  destruct m; simpl; try done; intros _;
    (split; [intros H; try discriminate H; auto
            |intros [H|H]; try discriminate H; auto]).
Qed.

(** C2 on a picture in mode LA (grey with alpha): the mode is left as it is
    and the encoder refuses it. *)
Lemma grey_alpha_not_converted :
  let w := world_of sample_manifest (mk_image 800 600 MLA) no_credentials in
  has_alpha MLA = true /\
  resize_image w "photo.png" 1600 s3_empty =
  mk_outcome (Raise (PyException "OSError" "cannot write mode LA as JPEG"))
             [ImageOpen "photo.png"; ImageResize 1600 1200] s3_empty.
Proof. by vm_compute. Qed.

(** On the two modes the code names, the conversion is done and the buffer
    is RGB, for a picture that decodes. *)
Lemma alpha_converted (w : world) (path : string) (W : Z) (s : s3_state)
    (img : image) (h : Z) :
  0 < W <= JPEG_MAX_DIMENSION ->
  image_file w path = Ok img ->
  image_load w path = None ->
  mode img = MRGBA \/ mode img = MP ->
  target_height img W = Ok h ->
  1 <= h <= JPEG_MAX_DIMENSION ->
  resize_image w path W s =
  mk_outcome (Ok (mk_jpeg W h MRGB 85 true))
    [ImageOpen path; ImageResize W h; ImageConvert MRGB;
     JpegSave (mk_jpeg W h MRGB 85 true)] s.
Proof.
  intros HW Hi Hld Hm Hh Hh'. rewrite resize_image_run, Hi, Hh, Hld.
  replace (W <? 1)%Z with false by (symmetry; apply Z.ltb_ge; lia).
  replace (h <? 1)%Z with false by (symmetry; apply Z.ltb_ge; lia).
  cbn [orb]. unfold conversion, encoded_mode, pil_save_jpeg.
  destruct (decide _) as [_|Hn]; [|tauto]. cbn [width height mode].
  replace (W =? 0)%Z with false by (symmetry; apply Z.eqb_neq; lia).
  replace (h =? 0)%Z with false by (symmetry; apply Z.eqb_neq; lia).
  replace (JPEG_MAX_DIMENSION <? W)%Z with false
    by (symmetry; apply Z.ltb_ge; lia).
  replace (JPEG_MAX_DIMENSION <? h)%Z with false
    by (symmetry; apply Z.ltb_ge; lia).
  done.
Qed.

(** Truncation acts on the double-precision product, not on the exact
    quotient: 49 * (1 / 49) is just below 1 in double precision, so a picture
    of 49 x 1 pixels resized to its own width gets the height 0, which
    Pillow refuses. *)
Example product_below_one :
  let w := world_of sample_manifest (mk_image 49 1 MRGB) no_credentials in
  target_height (mk_image 49 1 MRGB) 49 = Ok 0 /\
  resize_image w "photo.png" 49 s3_empty =
  mk_outcome (Raise (PyException "ValueError" "height and width must be > 0"))
             [ImageOpen "photo.png"; ImageResize 49 0] s3_empty.
Proof. by vm_compute. Qed.

(** The end-to-end scenario of the specification: one entry, index 0, a
    picture of 3200 x 1800 pixels, both credentials set and a service that
    accepts: 1600 x 900 goes to a/main.jpg, 75 x 42 to a/prev.jpg, and the
    exit code is 0. *)
Example end_to_end :
  let w := world_of sample_manifest (mk_image 3200 1800 MRGB)
                    (fun _ => Some "k") in
  let c := mk_cli (Some "photo.png") (Some "summit.yaml") (Some 0) None None in
  let o := app w c s3_empty in
  let jm := mk_jpeg 1600 900 MRGB 85 true in
  let jp := mk_jpeg 75 42 MRGB 85 true in
  exit_code o = 0 /\
  steps (out o) = plan w S3_BUCKET jm jp "a/main.jpg" "a/prev.jpg" /\
  objects (post o) !! (S3_BUCKET, "a/main.jpg") = Some (mk_object jm JPEG_ARGS) /\
  objects (post o) !! (S3_BUCKET, "a/prev.jpg") = Some (mk_object jp JPEG_ARGS).
Proof. by vm_compute. Qed.

(** * Further properties of the code *)

(** A failure of the loader, as the run shows it. *)
Lemma upload_manifest_failure_run (w : world) (ip sp : string) (i : Z)
    (b : string) (s : s3_state) (e : exn) (t : list event) :
  manifest_loader w sp i s = mk_outcome (Raise e) t s ->
  let o := upload w ip sp i b s in
  out o = t ++ [Echo true (failure_message e)] /\ post o = s /\ exit_code o = 1.
Proof.
  intros H o. subst o. by rewrite (upload_manifest_failure _ _ _ _ _ _ _ _ H).
Qed.

Lemma manifest_loader_unreadable (w : world) (sp : string) (i : Z)
    (s : s3_state) (e : exn) :
  yaml_file w sp = Raise e ->
  manifest_loader w sp i s = mk_outcome (Raise e) [reading sp] s.
Proof.
  intros Hy. unfold manifest_loader, echo. run_M. by rewrite Hy.
Qed.

Lemma manifest_loader_not_mapping (w : world) (sp : string) (i : Z)
    (s : s3_state) (v : pyval) :
  yaml_file w sp = Ok v -> is_mapping v = false ->
  manifest_loader w sp i s =
  mk_outcome (Raise (PyException "AttributeError" (no_get_attribute v)))
             [reading sp] s.
Proof.
  intros Hy Hv. unfold manifest_loader, echo. run_M. rewrite Hy.
  by destruct v.
Qed.

Lemma manifest_loader_falsy_images (w : world) (sp : string) (i : Z)
    (s : s3_state) (d : list (string * pyval)) :
  yaml_file w sp = Ok (PDict d) ->
  truthy (field d "images") = false ->
  manifest_loader w sp i s =
  mk_outcome (Raise (Exit 1)) [reading sp; Echo true NO_IMAGES] s.
Proof.
  intros Hy Hi. unfold manifest_loader, echo, secho_err. run_M.
  rewrite Hy. cbn [py_get]. run_M. fold (field d "images"). by rewrite Hi.
Qed.

Lemma manifest_loader_missing_field (w : world) (sp : string) (i : Z)
    (s : s3_state) (d e : list (string * pyval)) (l : list pyval) :
  yaml_file w sp = Ok (PDict d) ->
  dict_get d "images" = Some (PList l) ->
  0 <= i < Z.of_nat (length l) ->
  l !! Z.to_nat i = Some (PDict e) ->
  truthy (field e "url") = false \/ truthy (field e "preview_url") = false ->
  manifest_loader w sp i s =
  mk_outcome (Raise (Exit 1)) [reading sp; Echo true MISSING_FIELD] s.
Proof.
  intros Hy Hi Hr Hl Hf. unfold manifest_loader, echo, secho_err.
  run_M. rewrite Hy. cbn [py_get]. run_M. rewrite Hi. cbn [truthy].
  destruct l as [|x l]; [simpl in Hr; lia|]. cbn [negb].
  replace (i <? 0)%Z with false by (symmetry; apply Z.ltb_ge; lia).
  run_M. cbn [py_len]. run_M.
  replace (i >=? Z.of_nat (length (x :: l)))%Z with false
    by (symmetry; rewrite Z.geb_leb; apply Z.leb_gt; lia).
  cbn [py_getitem]. rewrite Hl. run_M. cbn [py_get]. run_M.
  fold (field e "url") (field e "preview_url").
  destruct Hf as [-> | ->]; [done|]. by rewrite orb_true_r.
Qed.

Lemma echo_only_not_image (t : list event) :
  Forall is_echo t ->
  Forall (fun e => is_image_op e = false /\ is_network e = false) t.
Proof. intros H. eapply Forall_impl; [exact H|]. by intros []. Qed.

(** X1. When the manifest cannot be opened or parsed, the run prints the
    line of the handler that matches the exception ("File not found", "Error
    parsing YAML file", or the plain error line) after the reading line and
    nothing else, leaves the service alone and exits with code 1. *)
Theorem manifest_unreadable_reported (w : world) (image_path summit_path : string)
    (index : Z) (bucket : string) (s : s3_state) (e : exn) :
  yaml_file w summit_path = Raise e ->
  let o := upload w image_path summit_path index bucket s in
  out o = [reading summit_path;
           Echo true
             match e with
             | FileNotFoundError m => "✗ Error: File not found - " +:+ m
             | YAMLError m => "✗ Error parsing YAML file: " +:+ m
             | Exit _ => "✗ Error: "
             | PyException _ m => "✗ Error: " +:+ m
             end] /\
  post o = s /\ exit_code o = 1.
Proof.
  intros Hy.
  apply (upload_manifest_failure_run w image_path summit_path index bucket s e
           [reading summit_path]).
  by apply manifest_loader_unreadable.
Qed.

Lemma manifest_unreadable_reported_witness :
  let w := unreadable_manifest (YAMLError "mapping values are not allowed here") in
  let o := upload w "photo.png" "summit.yaml" 0 S3_BUCKET s3_empty in
  yaml_file w "summit.yaml" = Raise (YAMLError "mapping values are not allowed here") /\
  out o = [reading "summit.yaml";
           Echo true "✗ Error parsing YAML file: mapping values are not allowed here"] /\
  post o = s3_empty /\ exit_code o = 1.
Proof.
  intros w o. split; [reflexivity|].
  apply (manifest_unreadable_reported w "photo.png" "summit.yaml" 0 S3_BUCKET
           s3_empty (YAMLError "mapping values are not allowed here")).
  reflexivity.
Defined.

(** X2. A document that is not a mapping (an empty file, a sequence, a
    scalar) has no [get]: the AttributeError is caught, its text names the
    type, and the run ends with exit code 1 before anything else happens. *)
Theorem manifest_not_mapping_reported (w : world) (image_path summit_path : string)
    (index : Z) (bucket : string) (s : s3_state) (v : pyval) :
  yaml_file w summit_path = Ok v ->
  is_mapping v = false ->
  let o := upload w image_path summit_path index bucket s in
  out o = [reading summit_path;
           Echo true ("✗ Error: '" +:+ type_name v
                      +:+ "' object has no attribute 'get'")] /\
  post o = s /\ exit_code o = 1.
Proof.
  intros Hy Hv.
  apply (upload_manifest_failure_run w image_path summit_path index bucket s
           (PyException "AttributeError" (no_get_attribute v))
           [reading summit_path]).
  by apply manifest_loader_not_mapping.
Qed.

Lemma manifest_not_mapping_reported_witness :
  let w := world_of PNone (mk_image 3200 1800 MRGB) no_credentials in
  let o := upload w "photo.png" "summit.yaml" 0 S3_BUCKET s3_empty in
  yaml_file w "summit.yaml" = Ok PNone /\
  is_mapping PNone = false /\
  out o = [reading "summit.yaml";
           Echo true "✗ Error: 'NoneType' object has no attribute 'get'"] /\
  post o = s3_empty /\ exit_code o = 1.
Proof.
  intros w o. split; [reflexivity|]. split; [reflexivity|].
  apply (manifest_not_mapping_reported w "photo.png" "summit.yaml" 0 S3_BUCKET
           s3_empty PNone); reflexivity.
Defined.

(** X3. Whatever falsy value stands under [images] (null, false, 0, an empty
    string, sequence or mapping, or no key at all), the run reports the
    missing images and exits with code 1. *)
Theorem falsy_images_reported (w : world) (image_path summit_path : string)
    (index : Z) (bucket : string) (s : s3_state) (d : list (string * pyval)) :
  yaml_file w summit_path = Ok (PDict d) ->
  truthy (field d "images") = false ->
  let o := upload w image_path summit_path index bucket s in
  out o = [reading summit_path; Echo true NO_IMAGES; Echo true "✗ Error: "] /\
  post o = s /\ exit_code o = 1.
Proof.
  intros Hy Hi.
  apply (upload_manifest_failure_run w image_path summit_path index bucket s
           (Exit 1) [reading summit_path; Echo true NO_IMAGES]).
  by apply (manifest_loader_falsy_images w summit_path index s d).
Qed.

Lemma falsy_images_reported_witness :
  let d := [("images", PInt 0)] in
  let w := world_of (PDict d) (mk_image 3200 1800 MRGB) no_credentials in
  let o := upload w "photo.png" "summit.yaml" 0 S3_BUCKET s3_empty in
  yaml_file w "summit.yaml" = Ok (PDict d) /\
  truthy (field d "images") = false /\
  out o = [reading "summit.yaml"; Echo true NO_IMAGES; Echo true "✗ Error: "] /\
  post o = s3_empty /\ exit_code o = 1.
Proof.
  intros d w o. split; [reflexivity|]. split; [reflexivity|].
  apply (falsy_images_reported w "photo.png" "summit.yaml" 0 S3_BUCKET
           s3_empty d); reflexivity.
Defined.

(** X4. When the selected entry lacks [url] or [preview_url], or holds a
    falsy value there, the run reports the missing field and exits with code
    1 without opening the picture. *)
Theorem missing_field_reported (w : world) (image_path summit_path : string)
    (index : Z) (bucket : string) (s : s3_state)
    (d e : list (string * pyval)) (l : list pyval) :
  yaml_file w summit_path = Ok (PDict d) ->
  dict_get d "images" = Some (PList l) ->
  0 <= index < Z.of_nat (length l) ->
  l !! Z.to_nat index = Some (PDict e) ->
  truthy (field e "url") = false \/ truthy (field e "preview_url") = false ->
  let o := upload w image_path summit_path index bucket s in
  out o = [reading summit_path; Echo true MISSING_FIELD; Echo true "✗ Error: "] /\
  post o = s /\ exit_code o = 1.
Proof.
  intros Hy Hi Hr Hl Hf.
  apply (upload_manifest_failure_run w image_path summit_path index bucket s
           (Exit 1) [reading summit_path; Echo true MISSING_FIELD]).
  by apply (manifest_loader_missing_field w summit_path index s d e l).
Qed.

Lemma missing_field_reported_witness :
  let d := [("images", PList [PDict entry_without_preview])] in
  let w := world_of (PDict d) (mk_image 3200 1800 MRGB) no_credentials in
  let o := upload w "photo.png" "summit.yaml" 0 S3_BUCKET s3_empty in
  0 <= 0 < Z.of_nat (length [PDict entry_without_preview]) /\
  truthy (field entry_without_preview "preview_url") = false /\
  out o = [reading "summit.yaml"; Echo true MISSING_FIELD; Echo true "✗ Error: "] /\
  post o = s3_empty /\ exit_code o = 1.
Proof.
  intros d w o. split; [simpl; lia|]. split; [reflexivity|].
  apply (missing_field_reported w "photo.png" "summit.yaml" 0 S3_BUCKET s3_empty
           d entry_without_preview [PDict entry_without_preview]);
    [reflexivity|reflexivity|simpl; lia|reflexivity|right; reflexivity].
Defined.

(** X5. The loader returns keys only for a document that is a mapping with
    a truthy value under [images] and an index from 0 up to the length of
    that value (never a negative one); the keys are what [get] gives for
    [url] and [preview_url] on the element at the index, both truthy, and
    only the reading line was printed. *)
Theorem loader_returns_checked_keys (w : world) (summit_path : string)
    (index : Z) (s : s3_state) (url pre : pyval) :
  res (manifest_loader w summit_path index s) = Ok (url, pre) ->
  exists d images n entry,
    yaml_file w summit_path = Ok (PDict d) /\
    dict_get d "images" = Some images /\ truthy images = true /\
    py_len images = Ok n /\ 0 <= index < n /\
    py_getitem images index = Ok entry /\
    py_get entry "url" = Ok url /\ py_get entry "preview_url" = Ok pre /\
    truthy url = true /\ truthy pre = true /\
    out (manifest_loader w summit_path index s) = [reading summit_path].
Proof.
  unfold manifest_loader, echo, secho_err. run_M. rewrite res_prepend, out_prepend.
  destruct (yaml_file w summit_path) as [v|e] eqn:Hy; [|done].
  destruct v as [| | | | |d]; try done. cbn [py_get]. run_M.
  destruct (dict_get d "images") as [images|] eqn:Hi; [|done].
  destruct (truthy images) eqn:Ht; cbn [negb]; [|done].
  destruct (index <? 0)%Z eqn:Hneg; run_M.
  { destruct (py_len images); by run_M. }
  destruct (py_len images) as [n|e] eqn:Hn; run_M; [|done].
  destruct (index >=? n)%Z eqn:Hge.
  { by run_M. }
  destruct (py_getitem images index) as [entry|e] eqn:Hg; run_M; [|done].
  destruct (py_get entry "url") as [u|e] eqn:Hu; run_M; [|done].
  destruct (py_get entry "preview_url") as [p|e] eqn:Hp; run_M; [|done].
  destruct (truthy u) eqn:Htu; cbn [negb orb]; [|done].
  destruct (truthy p) eqn:Htp; cbn [negb]; [|done].
  cbn [ret res out]. intros [= <- <-].
  exists d, images, n, entry. split_and!; try done.
  - apply Z.ltb_ge in Hneg. lia.
  - rewrite Z.geb_leb in Hge. apply Z.leb_gt in Hge. lia.
Qed.

Lemma loader_returns_checked_keys_witness :
  let w := world_of sample_manifest (mk_image 3200 1800 MRGB) no_credentials in
  res (manifest_loader w "summit.yaml" 0 s3_empty)
    = Ok (PStr "a/main.jpg", PStr "a/prev.jpg") /\
  exists d images n entry,
    yaml_file w "summit.yaml" = Ok (PDict d) /\
    dict_get d "images" = Some images /\ truthy images = true /\
    py_len images = Ok n /\ 0 <= 0 < n /\
    py_getitem images 0 = Ok entry /\
    py_get entry "url" = Ok (PStr "a/main.jpg") /\
    py_get entry "preview_url" = Ok (PStr "a/prev.jpg") /\
    truthy (PStr "a/main.jpg") = true /\ truthy (PStr "a/prev.jpg") = true /\
    out (manifest_loader w "summit.yaml" 0 s3_empty) = [reading "summit.yaml"].
Proof.
  intros w. split; [reflexivity|].
  apply (loader_returns_checked_keys w "summit.yaml" 0 s3_empty).
  reflexivity.
Defined.

(** X6. [resize_image] prints nothing, makes no call into the storage
    client and leaves the service as it is; the first thing it does is to
    open the picture. *)
Theorem resize_image_only_image_work (w : world) (path : string) (W : Z)
    (s : s3_state) :
  let o := resize_image w path W s in
  post o = s /\
  Forall (fun e => is_echo e = false /\ is_network e = false) (out o) /\
  head (out o) = Some (ImageOpen path).
Proof.
  intros o. subst o.
  destruct (resize_image_confined w path W s) as [Hp Ho].
  split; [exact Hp|]. split.
  - eapply Forall_impl; [exact Ho|]. by intros [].
  - by rewrite resize_image_run, out_prepend.
Qed.

(** X7. Every buffer [resize_image] returns has the target width, sides
    between 1 and 65500, quality 85 with optimisation, and a mode the JPEG
    encoder writes, without alpha channel and without palette; encoding it is
    the last thing the function does. *)
Theorem resize_image_buffer (w : world) (path : string) (W : Z)
    (s : s3_state) (j : jpeg) :
  res (resize_image w path W s) = Ok j ->
  jpeg_width j = W /\
  1 <= jpeg_width j <= 65500 /\
  1 <= jpeg_height j <= 65500 /\
  jpeg_quality j = 85 /\ jpeg_optimize j = true /\
  jpeg_writable (jpeg_mode j) = true /\
  has_alpha (jpeg_mode j) = false /\ palette_based (jpeg_mode j) = false /\
  last (out (resize_image w path W s)) = Some (JpegSave j).
Proof.
  rewrite resize_image_run, res_prepend, out_prepend.
  destruct (image_file w path) as [img|e]; [|done].
  destruct (target_height img W) as [h|e]; [|done].
  rewrite res_prepend, out_prepend.
  destruct (image_load w path) as [e|]; [done|].
  destruct (W <? 1)%Z eqn:HW; [done|]. apply Z.ltb_ge in HW.
  destruct (h <? 1)%Z eqn:Hh; [done|]. apply Z.ltb_ge in Hh.
  cbn [orb]. rewrite res_prepend, out_prepend.
  unfold pil_save_jpeg. cbn [width height mode].
  destruct ((W =? 0) || (h =? 0))%Z; [done|].
  destruct (jpeg_writable (encoded_mode (mode img))) eqn:Hm; cbn [negb]; [|done].
  destruct (JPEG_MAX_DIMENSION <? W)%Z eqn:HW'; [done|]. apply Z.ltb_ge in HW'.
  destruct (JPEG_MAX_DIMENSION <? h)%Z eqn:Hh'; [done|]. apply Z.ltb_ge in Hh'.
  cbn [orb]. run_M. rewrite res_prepend, out_prepend. cbn [ret res out].
  intros [= <-]. cbn [jpeg_width jpeg_height jpeg_mode jpeg_quality jpeg_optimize].
  unfold JPEG_MAX_DIMENSION in *.
  split_and!; try done; try lia.
  - by destruct (encoded_mode (mode img)).
  - by destruct (encoded_mode (mode img)).
  - unfold conversion. by destruct (decide _).
Qed.

Lemma resize_image_buffer_witness :
  let w := world_of sample_manifest (mk_image 640 480 MP) no_credentials in
  let j := mk_jpeg 75 56 MRGB 85 true in
  res (resize_image w "photo.png" 75 s3_empty) = Ok j /\
  jpeg_width j = 75 /\
  1 <= jpeg_width j <= 65500 /\
  1 <= jpeg_height j <= 65500 /\
  jpeg_quality j = 85 /\ jpeg_optimize j = true /\
  jpeg_writable (jpeg_mode j) = true /\
  has_alpha (jpeg_mode j) = false /\ palette_based (jpeg_mode j) = false /\
  last (out (resize_image w "photo.png" 75 s3_empty)) = Some (JpegSave j).
Proof.
  intros w j. split; [reflexivity|].
  apply (resize_image_buffer w "photo.png" 75 s3_empty j). reflexivity.
Defined.

(** X8. A picture in mode RGBA or P that decodes and whose target size is
    acceptable is resized, converted to RGB and encoded, in this order, and
    the buffer returned is RGB. *)
Theorem rgba_and_palette_converted (w : world) (path : string) (W : Z)
    (s : s3_state) (img : image) (h : Z) :
  0 < W <= JPEG_MAX_DIMENSION ->
  image_file w path = Ok img ->
  image_load w path = None ->
  mode img = MRGBA \/ mode img = MP ->
  target_height img W = Ok h ->
  1 <= h <= JPEG_MAX_DIMENSION ->
  resize_image w path W s =
  mk_outcome (Ok (mk_jpeg W h MRGB 85 true))
    [ImageOpen path; ImageResize W h; ImageConvert MRGB;
     JpegSave (mk_jpeg W h MRGB 85 true)] s.
Proof.
  intros HW Hi Hld Hm Hh Hh'. rewrite resize_image_run, Hi, Hh, Hld.
  replace (W <? 1)%Z with false by (symmetry; apply Z.ltb_ge; lia).
  replace (h <? 1)%Z with false by (symmetry; apply Z.ltb_ge; lia).
  cbn [orb]. unfold conversion, encoded_mode, pil_save_jpeg.
  destruct (decide _) as [_|Hn]; [|tauto]. cbn [width height mode].
  replace (W =? 0)%Z with false by (symmetry; apply Z.eqb_neq; lia).
  replace (h =? 0)%Z with false by (symmetry; apply Z.eqb_neq; lia).
  replace (JPEG_MAX_DIMENSION <? W)%Z with false
    by (symmetry; apply Z.ltb_ge; lia).
  replace (JPEG_MAX_DIMENSION <? h)%Z with false
    by (symmetry; apply Z.ltb_ge; lia).
  done.
Qed.

Lemma rgba_and_palette_converted_witness :
  let img := mk_image 640 480 MRGBA in
  let w := world_of sample_manifest img no_credentials in
  0 < 1600 <= JPEG_MAX_DIMENSION /\
  (mode img = MRGBA \/ mode img = MP) /\
  target_height img 1600 = Ok 1200 /\
  resize_image w "photo.png" 1600 s3_empty =
  mk_outcome (Ok (mk_jpeg 1600 1200 MRGB 85 true))
    [ImageOpen "photo.png"; ImageResize 1600 1200; ImageConvert MRGB;
     JpegSave (mk_jpeg 1600 1200 MRGB 85 true)] s3_empty.
Proof.
  intros img w. unfold JPEG_MAX_DIMENSION.
  split; [lia|]. split; [left; reflexivity|]. split; [reflexivity|].
  apply (rgba_and_palette_converted w "photo.png" 1600 s3_empty img 1200);
    unfold JPEG_MAX_DIMENSION;
    [lia|reflexivity|reflexivity|left; reflexivity|reflexivity|lia].
Defined.



Lemma credentials_present (w : world) (a k : string) :
  environ w "S3_ACCESS_KEY" = Some a -> a <> "" ->
  environ w "S3_SECRET_KEY" = Some k -> k <> "" ->
  credentials_missing w = false /\
  the_client w = ClientCreate S3_ENDPOINT a k "path".
Proof.
  intros Ha Ha' Hk Hk'. unfold credentials_missing, the_client.
  rewrite Ha, Hk. simpl.
  apply String.eqb_neq in Ha', Hk'. by rewrite Ha', Hk'.
Qed.

(** X10. With both credentials set and a service that accepts,
    [upload_to_s3] creates the client with exactly these credentials, sends
    the buffer, prints the uploaded line and returns; the object is then
    found under (bucket, key) with the content type image/jpeg, and no other
    object has changed. *)
Theorem upload_to_s3_stores (w : world) (j : jpeg) (key bucket a k : string)
    (s : s3_state) :
  environ w "S3_ACCESS_KEY" = Some a -> a <> "" ->
  environ w "S3_SECRET_KEY" = Some k -> k <> "" ->
  s3_response w (requests s) = None ->
  let o := upload_to_s3 w j (PStr key) bucket s in
  res o = Ok tt /\
  out o = [ClientCreate "https://s3.timeweb.cloud" a k "path";
           UploadFileobj j bucket key [("ContentType", "image/jpeg")];
           Echo false ("  ✓ Uploaded to s3://" +:+ bucket +:+ "/" +:+ key)] /\
  objects (post o) !! (bucket, key)
    = Some (mk_object j [("ContentType", "image/jpeg")]) /\
  (forall other, other <> (bucket, key) ->
     objects (post o) !! other = objects s !! other).
Proof.
  intros Ha Ha' Hk Hk' Hr o. subst o.
  destruct (credentials_present w a k Ha Ha' Hk Hk') as [Hc Hcl].
  pose proof (upload_to_s3_run w j (PStr key) bucket s) as Hu.
  inversion Hu as [| | |k' Hm Hkey Hn Heq]; try congruence.
  injection Hkey as <-. rewrite Hcl. cbn [res out post stored objects].
  split_and!; try done.
  - apply lookup_insert_eq.
  - intros other Hne. by apply lookup_insert_ne.
Qed.

Lemma upload_to_s3_stores_witness :
  let w := world_of sample_manifest (mk_image 3200 1800 MRGB) with_credentials in
  let j := mk_jpeg 75 42 MRGB 85 true in
  let o := upload_to_s3 w j (PStr "a/prev.jpg") "bk" s3_empty in
  s3_response w (requests s3_empty) = None /\
  res o = Ok tt /\
  out o = [ClientCreate "https://s3.timeweb.cloud" "AK" "SK" "path";
           UploadFileobj j "bk" "a/prev.jpg" [("ContentType", "image/jpeg")];
           Echo false "  ✓ Uploaded to s3://bk/a/prev.jpg"] /\
  objects (post o) !! ("bk", "a/prev.jpg")
    = Some (mk_object j [("ContentType", "image/jpeg")]) /\
  (forall other, other <> ("bk", "a/prev.jpg") ->
     objects (post o) !! other = objects s3_empty !! other).
Proof.
  intros w j o. split; [reflexivity|].
  apply (upload_to_s3_stores w j "a/prev.jpg" "bk" "AK" "SK" s3_empty);
    try reflexivity; discriminate.
Defined.

(** X11. When the service refuses the transfer, [upload_to_s3] raises the
    exception of the service unchanged, prints no uploaded line and stores
    nothing. *)
Theorem upload_to_s3_refused (w : world) (j : jpeg) (key bucket a k : string)
    (s : s3_state) (e : exn) :
  environ w "S3_ACCESS_KEY" = Some a -> a <> "" ->
  environ w "S3_SECRET_KEY" = Some k -> k <> "" ->
  s3_response w (requests s) = Some e ->
  let o := upload_to_s3 w j (PStr key) bucket s in
  res o = Raise e /\
  out o = [ClientCreate "https://s3.timeweb.cloud" a k "path";
           UploadFileobj j bucket key [("ContentType", "image/jpeg")]] /\
  objects (post o) = objects s.
Proof.
  intros Ha Ha' Hk Hk' Hr o. subst o.
  destruct (credentials_present w a k Ha Ha' Hk Hk') as [Hc Hcl].
  pose proof (upload_to_s3_run w j (PStr key) bucket s) as Hu.
  inversion Hu as [| |k' e' Hm Hkey He Heq|]; try congruence.
  injection Hkey as <-. rewrite Hcl. rewrite Hr in He. by injection He as <-.
Qed.

Lemma upload_to_s3_refused_witness :
  let j := mk_jpeg 1600 900 MRGB 85 true in
  let o := upload_to_s3 refusing_first j (PStr "a/main.jpg") "bk" s3_empty in
  s3_response refusing_first (requests s3_empty)
    = Some (PyException "ClientError" "AccessDenied") /\
  res o = Raise (PyException "ClientError" "AccessDenied") /\
  out o = [ClientCreate "https://s3.timeweb.cloud" "AK" "SK" "path";
           UploadFileobj j "bk" "a/main.jpg" [("ContentType", "image/jpeg")]] /\
  objects (post o) = objects s3_empty.
Proof.
  intros j o. split; [reflexivity|].
  apply (upload_to_s3_refused refusing_first j "a/main.jpg" "bk" "AK" "SK"
           s3_empty (PyException "ClientError" "AccessDenied"));
    try reflexivity; discriminate.
Defined.

Lemma last_end (t1 t2 : list event) (x : event) :
  last t2 = Some x -> last (t1 ++ t2) = Some x.
Proof. intros H. by rewrite last_app, H. Qed.

Lemma last_cons_end (y x : event) (t : list event) :
  last t = Some x -> last (y :: t) = Some x.
Proof. intros H. by rewrite last_cons, H. Qed.

Ltac last_tac :=
  repeat first
    [ reflexivity
    | apply last_end
    | apply last_cons_end ].


(** X12. The credentials are looked at only when the first upload starts:
    with a credential missing, a run whose manifest and picture are fine
    still encodes both buffers, then prints the credentials error followed by
    the plain error line, and exits with code 1. *)
Theorem credentials_checked_after_resizes (w : world)
    (image_path summit_path : string) (index : Z) (bucket : string)
    (s : s3_state) (keys : pyval * pyval) (jm jp : jpeg) :
  credentials_missing w = true ->
  res (manifest_loader w summit_path index s) = Ok keys ->
  res (resize_image w image_path 1600 s) = Ok jm ->
  res (resize_image w image_path 75 s) = Ok jp ->
  let o := upload w image_path summit_path index bucket s in
  steps (out o) = [JpegSave jm; JpegSave jp] /\
  (exists t, out o = t ++ [Echo true CREDENTIALS_MESSAGE; Echo true "✗ Error: "]) /\
  post o = s /\ exit_code o = 1.
Proof.
  intros Hc G1 G2 G3 o. subst o.
  destruct (upload_run w image_path summit_path index bucket s) as
    [ e t1 H1 | url pre t1 e t2 H1 H2 | url pre t1 jm' t2 e t3 H1 H2 H3
    | url pre t1 jm' t2 jp' t3 e t4 s4 H1 H2 H3 H4
    | url pre t1 jm' t2 jp' t3 t4 s4 e t5 s5 H1 H2 H3 H4 H5
    | url pre t1 jm' t2 jp' t3 t4 s4 t5 s5 H1 H2 H3 H4 H5 ];
    try (rewrite upload_to_s3_no_credentials in H4 by done; simplify_eq).
  - by rewrite H1 in G1.
  - by rewrite H2 in G2.
  - by rewrite H3 in G3.
  - rewrite H2 in G2. rewrite H3 in G3. simpl in G2, G3. simplify_eq.
    cbn [res out post]. split_and!; try done.
    + rewrite steps_app, (steps_manifest_loader _ _ _ _ _ _ _ H1).
      norm_steps.
      destruct (steps_resize_image_ok _ _ _ _ _ _ _ H2) as [-> _].
      by destruct (steps_resize_image_ok _ _ _ _ _ _ _ H3) as [-> _].
    + exists (t1 ++ announce w image_path index url pre ++ t2
              ++ preview_note :: t3 ++ [uploading bucket]).
      rewrite <- !app_assoc. simpl. by rewrite <- !app_assoc.
Qed.

Lemma credentials_checked_after_resizes_witness :
  let w := world_of sample_manifest (mk_image 3200 1800 MRGB) no_credentials in
  let jm := mk_jpeg 1600 900 MRGB 85 true in
  let jp := mk_jpeg 75 42 MRGB 85 true in
  let o := upload w "photo.png" "summit.yaml" 0 S3_BUCKET s3_empty in
  credentials_missing w = true /\
  steps (out o) = [JpegSave jm; JpegSave jp] /\
  (exists t, out o = t ++ [Echo true CREDENTIALS_MESSAGE; Echo true "✗ Error: "]) /\
  post o = s3_empty /\ exit_code o = 1.
Proof.
  intros w jm jp o. split; [reflexivity|].
  apply (credentials_checked_after_resizes w "photo.png" "summit.yaml" 0
           S3_BUCKET s3_empty (PStr "a/main.jpg", PStr "a/prev.jpg") jm jp);
    reflexivity.
Defined.

(** X13. When either resize raises, the run makes no call into the storage
    client, leaves the service as it is, ends with the error line of that
    exception and exits with code 1. *)
Theorem resize_failure_stops_run (w : world) (image_path summit_path : string)
    (index : Z) (bucket : string) (s : s3_state) (keys : pyval * pyval)
    (e : exn) :
  res (manifest_loader w summit_path index s) = Ok keys ->
  res (resize_image w image_path 1600 s) = Raise e \/
  ((exists jm, res (resize_image w image_path 1600 s) = Ok jm) /\
   res (resize_image w image_path 75 s) = Raise e) ->
  let o := upload w image_path summit_path index bucket s in
  Forall (fun ev => is_network ev = false) (out o) /\
  last (out o) = Some (Echo true (failure_message e)) /\
  post o = s /\ exit_code o = 1.
Proof.
  intros G1 G o. subst o.
  destruct (upload_run w image_path summit_path index bucket s) as
    [ e' t1 H1 | url pre t1 e' t2 H1 H2 | url pre t1 jm' t2 e' t3 H1 H2 H3
    | url pre t1 jm' t2 jp' t3 e' t4 s4 H1 H2 H3 H4
    | url pre t1 jm' t2 jp' t3 t4 s4 e' t5 s5 H1 H2 H3 H4 H5
    | url pre t1 jm' t2 jp' t3 t4 s4 t5 s5 H1 H2 H3 H4 H5 ].
  - by rewrite H1 in G1.
  - assert (e' = e) as ->.
    { destruct G as [G|[[jm G] _]]; rewrite H2 in G; by simplify_eq/=. }
    cbn [res out post]. split_and!; try done.
    + change (silent (t1 ++ announce w image_path index url pre ++ t2
                       ++ [failed e])).
      unfold announce. eauto 20 with silent.
    + unfold failed. last_tac.
  - assert (e' = e) as ->.
    { destruct G as [G|[_ G]]; [rewrite H2 in G|rewrite H3 in G];
        by simplify_eq/=. }
    cbn [res out post]. split_and!; try done.
    + change (silent (t1 ++ announce w image_path index url pre ++ t2
                       ++ preview_note :: t3 ++ [failed e])).
      unfold announce. eauto 20 with silent.
    + unfold failed. last_tac.
  - destruct G as [G|[_ G]]; [rewrite H2 in G|rewrite H3 in G]; done.
  - destruct G as [G|[_ G]]; [rewrite H2 in G|rewrite H3 in G]; done.
  - destruct G as [G|[_ G]]; [rewrite H2 in G|rewrite H3 in G]; done.
Qed.

Lemma resize_failure_stops_run_witness :
  let o := upload no_such_file "photo.png" "summit.yaml" 0 S3_BUCKET s3_empty in
  res (resize_image no_such_file "photo.png" 1600 s3_empty)
    = Raise (FileNotFoundError "photo.png") /\
  Forall (fun ev => is_network ev = false) (out o) /\
  last (out o) = Some (Echo true "✗ Error: File not found - photo.png") /\
  post o = s3_empty /\ exit_code o = 1.
Proof.
  intros o. split; [reflexivity|].
  apply (resize_failure_stops_run no_such_file "photo.png" "summit.yaml" 0
           S3_BUCKET s3_empty (PStr "a/main.jpg", PStr "a/prev.jpg")
           (FileNotFoundError "photo.png")); [reflexivity|left; reflexivity].
Defined.









(** X15. After a successful run the preview buffer is stored under
    [preview_url], the main buffer under [url] when the two keys differ (with
    equal keys the preview has replaced it), and every other object is as it
    was. *)
Theorem successful_run_stores_both (w : world) (image_path summit_path : string)
    (index : Z) (bucket : string) (s : s3_state) :
  let o := upload w image_path summit_path index bucket s in
  res o = Ok tt ->
  exists u p jm jp,
    res (manifest_loader w summit_path index s) = Ok (PStr u, PStr p) /\
    res (resize_image w image_path 1600 s) = Ok jm /\
    res (resize_image w image_path 75 s) = Ok jp /\
    objects (post o) !! (bucket, p)
      = Some (mk_object jp [("ContentType", "image/jpeg")]) /\
    (u <> p ->
       objects (post o) !! (bucket, u)
         = Some (mk_object jm [("ContentType", "image/jpeg")])) /\
    (forall key, key <> (bucket, u) -> key <> (bucket, p) ->
       objects (post o) !! key = objects s !! key).
Proof.
  intros o. subst o.
  destruct (upload_run w image_path summit_path index bucket s) as
    [ e t1 H1 | url pre t1 e t2 H1 H2 | url pre t1 jm t2 e t3 H1 H2 H3
    | url pre t1 jm t2 jp t3 e t4 s4 H1 H2 H3 H4
    | url pre t1 jm t2 jp t3 t4 s4 e t5 s5 H1 H2 H3 H4 H5
    | url pre t1 jm t2 jp t3 t4 s4 t5 s5 H1 H2 H3 H4 H5 ];
    cbn [res post]; try done. intros _.
  pose proof (upload_to_s3_run w jm url bucket s) as G4. rewrite H4 in G4.
  inversion G4 as [| | |u Hm Hkey Hn Heq]; subst.
  pose proof (upload_to_s3_run w jp pre bucket (stored s jm bucket u)) as G5.
  rewrite H5 in G5.
  inversion G5 as [| | |p Hm' Hkey' Hn' Heq']; subst.
  exists u, p, jm, jp. rewrite H1, H2, H3. cbn [res stored objects].
  split_and!; try done.
  - apply lookup_insert_eq.
  - intros Hne. rewrite lookup_insert_ne by congruence. apply lookup_insert_eq.
  - intros key Hu Hp. by rewrite !lookup_insert_ne.
Qed.

Lemma successful_run_stores_both_witness :
  let w := world_of sample_manifest (mk_image 3200 1800 MRGB) with_credentials in
  let o := upload w "photo.png" "summit.yaml" 0 "bk" s3_empty in
  res o = Ok tt /\
  exists u p jm jp,
    res (manifest_loader w "summit.yaml" 0 s3_empty) = Ok (PStr u, PStr p) /\
    res (resize_image w "photo.png" 1600 s3_empty) = Ok jm /\
    res (resize_image w "photo.png" 75 s3_empty) = Ok jp /\
    objects (post o) !! ("bk", p)
      = Some (mk_object jp [("ContentType", "image/jpeg")]) /\
    (u <> p ->
       objects (post o) !! ("bk", u)
         = Some (mk_object jm [("ContentType", "image/jpeg")])) /\
    (forall key, key <> ("bk", u) -> key <> ("bk", p) ->
       objects (post o) !! key = objects s3_empty !! key).
Proof.
  intros w o. split; [reflexivity|].
  apply (successful_run_stores_both w "photo.png" "summit.yaml" 0 "bk" s3_empty).
  reflexivity.
Defined.

(** X16. When the service refuses the first transfer it gets, the run
    changes no object and exits with code 1. *)
Theorem refused_first_transfer (w : world) (image_path summit_path : string)
    (index : Z) (bucket : string) (s : s3_state) (e : exn) :
  s3_response w (requests s) = Some e ->
  let o := upload w image_path summit_path index bucket s in
  objects (post o) = objects s /\ exit_code o = 1.
Proof.
  intros He o. subst o. unfold exit_code.
  destruct (upload_progress w image_path summit_path index bucket s);
    try congruence; done.
Qed.

Lemma refused_first_transfer_witness :
  let o := upload refusing_first "photo.png" "summit.yaml" 0 "bk" s3_empty in
  s3_response refusing_first (requests s3_empty)
    = Some (PyException "ClientError" "AccessDenied") /\
  objects (post o) = objects s3_empty /\ exit_code o = 1.
Proof.
  intros o. split; [reflexivity|].
  apply (refused_first_transfer refusing_first "photo.png" "summit.yaml" 0 "bk"
           s3_empty (PyException "ClientError" "AccessDenied")).
  reflexivity.
Defined.

Lemma stateless_ret {A} (a : A) : stateless (ret a).
Proof. by intros s s'. Qed.

Lemma stateless_raise {A} (e : exn) : stateless (@raise A e).
Proof. by intros s s'. Qed.

Lemma stateless_lift {A} (r : result A) : stateless (lift r).
Proof. by intros s s'. Qed.

Lemma stateless_emit (e : event) : stateless (emit e).
Proof. by intros s s'. Qed.

Lemma stateless_bind {A B} (m : M A) (f : A -> M B) :
  stateless m -> (forall a, stateless (f a)) -> stateless (bind m f).
Proof.
  intros Hm Hf s s'. unfold bind. rewrite (Hm s s').
  destruct (m s) as [[a|e] t s0]; cbn [res out]; [|done].
  rewrite (Hf a s0 s'). by destruct (f a s0).
Qed.

Ltac stateless_step :=
  first
    [ apply stateless_ret | apply stateless_raise | apply stateless_lift
    | apply stateless_emit
    | apply stateless_bind; [|intros ?]
    | match goal with |- stateless (match ?x with _ => _ end) => destruct x end ].

Lemma manifest_loader_stateless (w : world) (sp : string) (i : Z) :
  stateless (manifest_loader w sp i).
Proof. unfold manifest_loader, echo, secho_err. repeat stateless_step. Qed.

Lemma resize_image_stateless (w : world) (p : string) (W : Z) :
  stateless (resize_image w p W).
Proof.
  unfold resize_image, pil_resize, pil_convert, pil_save_jpeg.
  repeat stateless_step.
Qed.

Lemma stateless_run {A} (m : M A) (s s' s0 : s3_state) (r : result A)
    (t : list event) :
  stateless m -> m s = mk_outcome r t s0 -> m s' = mk_outcome r t s'.
Proof. intros H Hm. rewrite (H s s'). by rewrite Hm. Qed.

Lemma insert_twice (m : gmap (string * string) s3_object)
    (k1 k2 : string * string) (v1 v2 : s3_object) :
  <[k2 := v2]> (<[k1 := v1]> (<[k2 := v2]> (<[k1 := v1]> m)))
  = <[k2 := v2]> (<[k1 := v1]> m).
Proof.
  apply map_eq. intros k.
  destruct (decide (k2 = k)) as [->|H2].
  - by rewrite !lookup_insert_eq.
  - rewrite !(lookup_insert_ne _ k2) by done.
    destruct (decide (k1 = k)) as [->|H1].
    + by rewrite !lookup_insert_eq.
    + by rewrite !lookup_insert_ne.
Qed.

Ltac invert_upload K :=
  match type of K with
  | upload_to_s3 ?w ?j ?k ?b ?st = _ =>
      let G := fresh "G" in
      pose proof (upload_to_s3_run w j k b st) as G; rewrite K in G;
      inversion G; clear G; simplify_eq
  end.

(** X17. Running the command again after a success, with a service that
    still accepts, succeeds again, prints and does the same, and leaves the
    objects exactly as the first run left them. *)
Theorem rerun_idempotent (w : world) (image_path summit_path : string)
    (index : Z) (bucket : string) (s : s3_state) :
  let o := upload w image_path summit_path index bucket s in
  res o = Ok tt ->
  s3_response w (requests (post o)) = None ->
  s3_response w (S (requests (post o))) = None ->
  let o' := upload w image_path summit_path index bucket (post o) in
  res o' = Ok tt /\ out o' = out o /\ objects (post o') = objects (post o).
Proof.
  intros o. subst o.
  destruct (upload_run w image_path summit_path index bucket s) as
    [ e t1 H1 | url pre t1 e t2 H1 H2 | url pre t1 jm t2 e t3 H1 H2 H3
    | url pre t1 jm t2 jp t3 e t4 s4 H1 H2 H3 H4
    | url pre t1 jm t2 jp t3 t4 s4 e t5 s5 H1 H2 H3 H4 H5
    | url pre t1 jm t2 jp t3 t4 s4 t5 s5 H1 H2 H3 H4 H5 ];
    cbn [res post out]; try done. intros _ Hr Hr'.
  pose proof (upload_to_s3_run w jm url bucket s) as G4. rewrite H4 in G4.
  inversion G4 as [| | |u Hm Hkey Hn Heq]; subst.
  pose proof (upload_to_s3_run w jp pre bucket (stored s jm bucket u)) as G5.
  rewrite H5 in G5.
  inversion G5 as [| | |p Hm' Hkey' Hn' Heq']; subst.
  pose proof (stateless_run _ s (stored (stored s jm bucket u) jp bucket p) _ _ _
                (manifest_loader_stateless w summit_path index) H1) as H1'.
  pose proof (stateless_run _ s (stored (stored s jm bucket u) jp bucket p) _ _ _
                (resize_image_stateless w image_path 1600) H2) as H2'.
  pose proof (stateless_run _ s (stored (stored s jm bucket u) jp bucket p) _ _ _
                (resize_image_stateless w image_path 75) H3) as H3'.
  destruct (upload_run w image_path summit_path index bucket
              (stored (stored s jm bucket u) jp bucket p)) as
    [ e t1' K1 | url' pre' t1' e t2' K1 K2 | url' pre' t1' jm' t2' e t3' K1 K2 K3
    | url' pre' t1' jm' t2' jp' t3' e t4' s4' K1 K2 K3 K4
    | url' pre' t1' jm' t2' jp' t3' t4' s4' e t5' s5' K1 K2 K3 K4 K5
    | url' pre' t1' jm' t2' jp' t3' t4' s4' t5' s5' K1 K2 K3 K4 K5 ];
    rewrite H1' in K1; try (rewrite H2' in K2); try (rewrite H3' in K3);
    simplify_eq.
  - invert_upload K4; cbn [stored refused requests] in *; congruence.
  - invert_upload K4. invert_upload K5;
      cbn [stored refused requests] in *; congruence.
  - invert_upload K4. invert_upload K5. cbn [res out post].
    split_and!; try done.
    cbn [stored objects]. apply insert_twice.
Qed.

Lemma rerun_idempotent_witness :
  let w := world_of sample_manifest (mk_image 3200 1800 MRGB) with_credentials in
  let o := upload w "photo.png" "summit.yaml" 0 "bk" s3_empty in
  let o' := upload w "photo.png" "summit.yaml" 0 "bk" (post o) in
  res o = Ok tt /\
  s3_response w (requests (post o)) = None /\
  s3_response w (S (requests (post o))) = None /\
  res o' = Ok tt /\ out o' = out o /\ objects (post o') = objects (post o).
Proof.
  intros w o o'. split; [reflexivity|]. split; [reflexivity|].
  split; [reflexivity|].
  apply (rerun_idempotent w "photo.png" "summit.yaml" 0 "bk" s3_empty);
    reflexivity.
Defined.

(** X18. When the service refuses the main transfer, the run has encoded
    both buffers, created one client and attempted this one transfer; it
    ends with the error line of the service's exception, stores nothing and
    exits with code 1. *)
Theorem upload_failure_reported (w : world) (image_path summit_path : string)
    (index : Z) (bucket : string) (s : s3_state) (u : string) (pre : pyval)
    (jm jp : jpeg) (e : exn) :
  credentials_missing w = false ->
  res (manifest_loader w summit_path index s) = Ok (PStr u, pre) ->
  res (resize_image w image_path 1600 s) = Ok jm ->
  res (resize_image w image_path 75 s) = Ok jp ->
  s3_response w (requests s) = Some e ->
  let o := upload w image_path summit_path index bucket s in
  steps (out o) = [JpegSave jm; JpegSave jp; the_client w;
                   UploadFileobj jm bucket u [("ContentType", "image/jpeg")]] /\
  last (out o) = Some (Echo true (failure_message e)) /\
  objects (post o) = objects s /\ exit_code o = 1.
Proof.
  intros Hc G1 G2 G3 He o. subst o.
  destruct (upload_run w image_path summit_path index bucket s) as
    [ e' t1 H1 | url pre' t1 e' t2 H1 H2 | url pre' t1 jm' t2 e' t3 H1 H2 H3
    | url pre' t1 jm' t2 jp' t3 e' t4 s4 H1 H2 H3 H4
    | url pre' t1 jm' t2 jp' t3 t4 s4 e' t5 s5 H1 H2 H3 H4 H5
    | url pre' t1 jm' t2 jp' t3 t4 s4 t5 s5 H1 H2 H3 H4 H5 ];
    rewrite H1 in G1; try (rewrite H2 in G2); try (rewrite H3 in G3);
    simplify_eq/=.
  - invert_upload H4; try congruence.
    cbn [res out post]. split_and!; try done.
    + rewrite steps_app, (steps_manifest_loader _ _ _ _ _ _ _ H1).
      norm_steps.
      destruct (steps_resize_image_ok _ _ _ _ _ _ _ H2) as [-> _].
      by destruct (steps_resize_image_ok _ _ _ _ _ _ _ H3) as [-> _].
    + unfold failed. last_tac.
  - invert_upload H4; congruence.
  - invert_upload H4; congruence.
Qed.

Lemma upload_failure_reported_witness :
  let jm := mk_jpeg 1600 900 MRGB 85 true in
  let jp := mk_jpeg 75 42 MRGB 85 true in
  let o := upload refusing_first "photo.png" "summit.yaml" 0 "bk" s3_empty in
  credentials_missing refusing_first = false /\
  s3_response refusing_first (requests s3_empty)
    = Some (PyException "ClientError" "AccessDenied") /\
  steps (out o) = [JpegSave jm; JpegSave jp; the_client refusing_first;
                   UploadFileobj jm "bk" "a/main.jpg"
                     [("ContentType", "image/jpeg")]] /\
  last (out o) = Some (Echo true "✗ Error: AccessDenied") /\
  objects (post o) = objects s3_empty /\ exit_code o = 1.
Proof.
  intros jm jp o. split; [reflexivity|]. split; [reflexivity|].
  apply (upload_failure_reported refusing_first "photo.png" "summit.yaml" 0 "bk"
           s3_empty "a/main.jpg" (PStr "a/prev.jpg") jm jp
           (PyException "ClientError" "AccessDenied")); reflexivity.
Defined.

